(** * kerchunk-test: reference extraction pipeline (python/example1.py)

    A shallow embedding of the orchestration script: naming of the JSON
    sidecars, per-file extraction, sequential and thread-pool iteration,
    discovery of the remote files and the call into the consolidator.

    Python values are modelled as follows.
    - [str] is [string], the UTF-8 bytes of the text (splitting at an ASCII
      character and comparing lexicographically agree on bytes and on code
      points); [str.split] with a one-character separator is [str_split];
      [str(n)] and the [{n}] of an f-string are stdpp's decimal [pretty] on
      [Z].
    - a raised exception is the [Raise] branch of [result]; code that can
      raise lives in the error monad ([x ← e; k]).
    - the write filesystem [fs_write] is a finite map from paths to file
      contents. Opening a path with mode "w" may raise; when it succeeds the
      entry exists and is empty. Encoding the message may raise, and so may
      writing the text, which then leaves some content the environment
      decides. Whether a path can be opened, a message encoded and a text
      written is the answer of the environment for that path, message and
      text: the script creates no directory and removes nothing, so its own
      writes do not change these answers.
    - the external libraries (scanner, JSON encoder, remote listing,
      consolidator) are the fields of the [External] interface.
    - the worker pool is a list of tasks advanced one quantum at a time in
      the order a schedule dictates; the schedule stands for the choices of
      the operating system.
    - [print] output is not modelled. *)

From Stdlib Require Import Ascii.
From stdpp Require Import gmap strings list fin_maps sorting pretty.

(** ** Exceptions and the error monad *)

Inductive exn : Type :=
  | IndexError      (* list index out of range *)
  | ExternalError.  (* anything raised inside an external library call *)

Inductive result (A : Type) : Type :=
  | Ok (a : A)
  | Raise (e : exn).
Arguments Ok {A} a.
Arguments Raise {A} e.

Global Instance result_ret : MRet result := λ A a, Ok a.
Global Instance result_bind : MBind result := λ A B f r,
  match r with
  | Ok a => f a
  | Raise e => Raise e
  end.

Global Instance exn_eq_dec : EqDecision exn.
Proof. solve_decision. Defined.
Global Instance result_eq_dec `{EqDecision A} : EqDecision (result A).
Proof. solve_decision. Defined.

(** ** Python list and string primitives *)

(** [l[i]] for a non-negative index. *)
Definition index {A} (l : list A) (i : nat) : result A :=
  match l !! i with
  | Some x => Ok x
  | None => Raise IndexError
  end.

(** [l[lo:hi]] for non-negative bounds; a slice never raises. *)
Definition slice {A} (lo hi : nat) (l : list A) : list A :=
  take (hi - lo) (drop lo l).

(** [s.split(sep)] for a separator of one character. *)
Fixpoint str_split (sep : ascii) (s : string) : list string :=
  match s with
  | EmptyString => [EmptyString]
  | String c s' =>
      if decide (c = sep) then EmptyString :: str_split sep s'
      else match str_split sep s' with
           | [] => [String c EmptyString]
           | w :: ws => String c w :: ws
           end
  end.

(** [sorted(l)] on a list of strings: a stable merge sort under the
    lexicographic order of the characters' codes. *)
Definition sorted (l : list string) : list string := merge_sort String.le l.

(** ** Configuration constants *)

Record grib_filter : Type := GribFilter {
  typeOfLevel : string;
  level : list Z
}.

Definition STORAGE_OPTIONS : list (string * bool) := [("anon", true)].
Definition FILTER_CONDITIONS : grib_filter :=
  {| typeOfLevel := "heightAboveGround"; level := [2; 10]%Z |}.
Definition JSON_DIR : string := "/tmp/jsons/".

(** ** The external libraries *)

(** Arguments of the [MultiZarrToZarr] constructor. *)
Record mzz_args : Type := MzzArgs {
  mzz_paths : list string;
  concat_dims : list string;
  identical_dims : list string
}.

(** The write filesystem: path ↦ content. *)
Abbreviation filesystem := (gmap string string).

(** How [f.write(text)] and the closing of the file end: the text is in the
    file, or an exception is raised and [kept] is what the file holds. *)
Inductive write_outcome : Type :=
  | Written
  | WriteFailed (e : exn) (kept : string).

Class External : Type := {
  (** a reference record of one GRIB2 message *)
  Message : Type;
  (** the translated references and the opened dataset *)
  References : Type;
  Dataset : Type;
  (** [kerchunk.grib2.scan_grib(url, storage_options=, filter=)] *)
  scan_grib : string → list (string * bool) → grib_filter → result (list Message);
  (** [ujson.dumps] *)
  ujson_dumps : Message → result string;
  (** [fs_read.glob(pattern)] *)
  fs_read_glob : string → result (list string);
  (** [fs_write.open(path, "w")]: raises when the path cannot be created *)
  fs_write_open : string → result ();
  (** [f.write(text)] on the file opened at the path, and its closing *)
  fs_write_write : string → string → write_outcome;
  (** [fs_write.ls(path)] on the current content of the write filesystem *)
  fs_write_ls : filesystem → string → result (list string);
  (** [MultiZarrToZarr(...).translate()], which reads the listed sidecars
      from the write filesystem *)
  MultiZarrToZarr_translate : filesystem → mzz_args → result References;
  (** the reference filesystem, its mapper and [xr.open_dataset] *)
  open_reference_dataset : References → list (string * bool) → result Dataset
}.

(** ** make_json_name *)

Definition make_json_name (file_url : string) (message_number : Z) : result string :=
  day_dir ← index (str_split "/"%char file_url) 3;
  date_segment ← index (str_split "."%char day_dir) 1;
  base ← index (str_split "/"%char file_url) 5;
  let name_segments := slice 1 3 (str_split "."%char base) in
  segA ← index name_segments 0;
  segB ← index name_segments 1;
  Ok (JSON_DIR +:+ date_segment +:+ "_" +:+ segA +:+ "_" +:+ segB
        +:+ "_message" +:+ pretty message_number +:+ ".json").


(** The name the specification gives a sidecar:
    [<json_dir>/<date>_<segA>_<segB>_message<N>.json], where [JSON_DIR]
    already ends with the separator. *)
Definition sidecar_path (date segA segB : string) (n : Z) : string :=
  JSON_DIR +:+ date +:+ "_" +:+ segA +:+ "_" +:+ segB
    +:+ "_message" +:+ pretty n +:+ ".json".

(** The fixed positional segments of a source path: the text between the
    first and second dot of the fourth '/'-segment, and the texts after the
    first and after the second dot of the sixth '/'-segment. *)
Definition path_segments (file_url date segA segB : string) : Prop :=
  ∃ day_dir base,
    str_split "/"%char file_url !! 3 = Some day_dir ∧
    str_split "."%char day_dir !! 1 = Some date ∧
    str_split "/"%char file_url !! 5 = Some base ∧
    str_split "."%char base !! 1 = Some segA ∧
    str_split "."%char base !! 2 = Some segB.

Definition well_formed (file_url : string) : Prop :=
  ∃ date segA segB, path_segments file_url date segA segB.

(** Two URLs whose '/'-separated segments agree everywhere but at index 2,
    the bucket of [s3://bucket/...]. *)
Definition differ_only_in_bucket (url1 url2 : string) : Prop :=
  ∃ scheme empty bucket1 bucket2 rest,
    str_split "/"%char url1 = scheme :: empty :: bucket1 :: rest ∧
    str_split "/"%char url2 = scheme :: empty :: bucket2 :: rest.

Section pipeline.
Context `{ext : External}.

(** ** generate_json_files *)

(** [with fs_write.open(json_file_name, "w") as f: f.write(ujson.dumps(message))]:
    the file is created or truncated first, then the message is encoded,
    then the text is written. *)
Definition write_sidecar (json_file_name : string) (message : Message)
    (fs : filesystem) : result () * filesystem :=
  match fs_write_open json_file_name with
  | Raise e => (Raise e, fs)
  | Ok _ =>
      let fs := <[json_file_name := ""]> fs in
      match ujson_dumps message with
      | Raise e => (Raise e, fs)
      | Ok text =>
          match fs_write_write json_file_name text with
          | WriteFailed e kept => (Raise e, <[json_file_name := kept]> fs)
          | Written => (Ok (), <[json_file_name := text]> fs)
          end
      end
  end.

(** The [for i, message in enumerate(references)] loop, from index [i]. *)
Fixpoint write_messages (file_url : string) (i : nat)
    (references : list Message) (fs : filesystem) : result () * filesystem :=
  match references with
  | [] => (Ok (), fs)
  | message :: rest =>
      match make_json_name file_url (Z.of_nat i) with
      | Raise e => (Raise e, fs)
      | Ok json_file_name =>
          match write_sidecar json_file_name message fs with
          | (Ok _, fs') => write_messages file_url (S i) rest fs'
          | (Raise e, fs') => (Raise e, fs')
          end
      end
  end.

Definition generate_json_files (file_url : string) (fs : filesystem)
    : result () * filesystem :=
  match scan_grib file_url STORAGE_OPTIONS FILTER_CONDITIONS with
  | Raise e => (Raise e, fs)
  | Ok references => write_messages file_url 0 references fs
  end.

(** ** process_files *)

Fixpoint process_files (file_list : list string) (fs : filesystem)
    : result () * filesystem :=
  match file_list with
  | [] => (Ok (), fs)
  | file_url :: rest =>
      match generate_json_files file_url fs with
      | (Ok _, fs') => process_files rest fs'
      | (Raise e, fs') => (Raise e, fs')
      end
  end.

(** ** process_files_parallel *)

(** A call of [generate_json_files] submitted to the pool: not started,
    inside the loop at index [i] with [rest] still to write, or finished
    with the outcome kept in its future. *)
Inductive task : Type :=
  | Submitted (file_url : string)
  | Looping (file_url : string) (i : nat) (rest : list Message)
  | Finished (outcome : result ()).

(** One scheduling quantum of a worker: the scan, or one loop iteration. *)
Definition task_step (t : task) (fs : filesystem) : task * filesystem :=
  match t with
  | Submitted file_url =>
      match scan_grib file_url STORAGE_OPTIONS FILTER_CONDITIONS with
      | Raise e => (Finished (Raise e), fs)
      | Ok references => (Looping file_url 0 references, fs)
      end
  | Looping file_url i [] => (Finished (Ok ()), fs)
  | Looping file_url i (message :: rest) =>
      match make_json_name file_url (Z.of_nat i) with
      | Raise e => (Finished (Raise e), fs)
      | Ok json_file_name =>
          match write_sidecar json_file_name message fs with
          | (Ok _, fs') => (Looping file_url (S i) rest, fs')
          | (Raise e, fs') => (Finished (Raise e), fs')
          end
      end
  | Finished outcome => (t, fs)
  end.

(** Running a task to its end without interruption. *)
Definition task_finish (t : task) (fs : filesystem) : result () * filesystem :=
  match t with
  | Submitted file_url => generate_json_files file_url fs
  | Looping file_url i rest => write_messages file_url i rest fs
  | Finished outcome => (outcome, fs)
  end.

(** The scheduler picks, quantum after quantum, which task advances. *)
Fixpoint run_schedule (sched : list nat) (pool : list task) (fs : filesystem)
    : list task * filesystem :=
  match sched with
  | [] => (pool, fs)
  | k :: sched' =>
      match pool !! k with
      | None => run_schedule sched' pool fs
      | Some t =>
          let '(t', fs') := task_step t fs in
          run_schedule sched' (<[k := t']> pool) fs'
      end
  end.

(** Leaving the [with] block waits for every task; what a task raised
    stays in its future, which nobody reads. *)
Fixpoint shutdown_wait (pool : list task) (fs : filesystem) : filesystem :=
  match pool with
  | [] => fs
  | t :: pool' => shutdown_wait pool' (task_finish t fs).2
  end.

Definition process_files_parallel (sched : list nat) (file_list : list string)
    (fs : filesystem) : result () * filesystem :=
  let '(pool, fs') := run_schedule sched (Submitted <$> file_list) fs in
  (Ok (), shutdown_wait pool fs').

(** ** Write logs

    What a computation leaves in the files it opens, as (path, content)
    pairs in program order, and the effect on the filesystem. These are
    specification devices; the code above does not use them. *)

Definition apply_writes (log : list (string * string)) (fs : filesystem)
    : filesystem :=
  foldl (λ fs w, <[w.1 := w.2]> fs) fs log.

(** How one [with] block ends and what it leaves in its file: nothing when
    the file cannot be opened, the empty file when the encoding raises, what
    the failed write left, or the text. *)
Definition sidecar_effect (json_file_name : string) (message : Message)
    : result () * list (string * string) :=
  match fs_write_open json_file_name with
  | Raise e => (Raise e, [])
  | Ok _ =>
      match ujson_dumps message with
      | Raise e => (Raise e, [(json_file_name, "")])
      | Ok text =>
          match fs_write_write json_file_name text with
          | WriteFailed e kept => (Raise e, [(json_file_name, kept)])
          | Written => (Ok (), [(json_file_name, text)])
          end
      end
  end.

(** What the loop leaves from index [i] on, up to and including the first
    iteration that raises. *)
Fixpoint loop_writes (file_url : string) (i : nat) (references : list Message)
    : list (string * string) :=
  match references with
  | [] => []
  | message :: rest =>
      match make_json_name file_url (Z.of_nat i) with
      | Raise _ => []
      | Ok json_file_name =>
          match sidecar_effect json_file_name message with
          | (Ok _, kept) => kept ++ loop_writes file_url (S i) rest
          | (Raise _, kept) => kept
          end
      end
  end.

(** What a task will still leave. *)
Definition task_writes (t : task) : list (string * string) :=
  match t with
  | Submitted file_url =>
      match scan_grib file_url STORAGE_OPTIONS FILTER_CONDITIONS with
      | Raise _ => []
      | Ok references => loop_writes file_url 0 references
      end
  | Looping file_url i rest => loop_writes file_url i rest
  | Finished _ => []
  end.

Definition pool_writes (pool : list task) : list (string * string) :=
  pool ≫= task_writes.

(** The names of the files the tasks of a file list open, file after file. *)
Definition written_names (file_list : list string) : list string :=
  (pool_writes (Submitted <$> file_list)).*1.

(** The sidecar of [message] can be stored at [json_file_name]: the file
    opens, the message encodes to [text], and the text gets written. *)
Definition writable (json_file_name : string) (message : Message) (text : string)
    : Prop :=
  fs_write_open json_file_name = Ok () ∧
  ujson_dumps message = Ok text ∧
  fs_write_write json_file_name text = Written.

(** ** find_grib_files *)

Definition MAX_DAYS : nat := 2.

(** [if len(available_days) > MAX_DAYS: available_days = available_days[:MAX_DAYS]] *)
Definition cap_days (available_days : list string) : list string :=
  if decide (MAX_DAYS < length available_days)
  then slice 0 MAX_DAYS available_days
  else available_days.

(** The comprehension [f's3://{file}' for day in ... for file in glob(...)]. *)
Fixpoint day_files (days : list string) : result (list string) :=
  match days with
  | [] => Ok []
  | day :: rest =>
      files ← fs_read_glob ("s3://" +:+ day +:+ "/conus/*wrfsfcf01.grib2");
      more ← day_files rest;
      Ok (((λ file, "s3://" +:+ file) <$> files) ++ more)
  end.

Definition find_grib_files : result (list string) :=
  available_days ← fs_read_glob "s3://noaa-hrrr-bdp-pds/hrrr.*";
  file_paths ← day_files (cap_days available_days);
  Ok (sorted file_paths).

(** ** combine_references *)

(** The arguments built for the consolidator. *)
Definition consolidator_call (json_dir : string) (fs : filesystem)
    : result mzz_args :=
  listing ← fs_write_ls fs json_dir;
  let reference_jsons := sorted listing in
  Ok {| mzz_paths := reference_jsons;
        concat_dims := ["valid_time"];
        identical_dims := ["latitude"; "longitude"; "heightAboveGround"; "step"] |}.

Definition combine_references (json_dir : string) (fs : filesystem)
    : result Dataset :=
  mzz ← consolidator_call json_dir fs;
  translated_data ← MultiZarrToZarr_translate fs mzz;
  open_reference_dataset translated_data STORAGE_OPTIONS.

End pipeline.

(** The days the specification's overview speaks of, "the most-recent days":
    the [n] latest by date. Day directories are named [<bucket>/hrrr.YYYYMMDD],
    so the latest dates are the greatest names. *)
Definition most_recent (n : nat) (days : list string) : list string :=
  take n (reverse (sorted days)).

(** ** A mock environment

    Messages are their own JSON text. Every source file yields two records,
    except one the scanner cannot read. The remote store lists three day
    directories. The consolidator and the dataset layer hand their input
    through. *)

Definition url_t00z : string :=
  "s3://noaa-hrrr-bdp-pds/hrrr.20240101/conus/hrrr.t00z.wrfsfcf01.grib2".
Definition url_t01z : string :=
  "s3://noaa-hrrr-bdp-pds/hrrr.20240101/conus/hrrr.t01z.wrfsfcf01.grib2".
Definition url_unreadable : string :=
  "s3://noaa-hrrr-bdp-pds/hrrr.20240101/conus/hrrr.t02z.wrfsfcf01.grib2".

Definition mock_scan (file_url : string) (storage_options : list (string * bool))
    (filter : grib_filter) : result (list string) :=
  if decide (file_url = url_unreadable) then Raise ExternalError
  else Ok ["{2m}"; "{10m}"].

Definition mock_day_files (day : string) : list string :=
  if decide (day = "d1") then
    ["d1/conus/hrrr.t01z.wrfsfcf01.grib2"; "d1/conus/hrrr.t00z.wrfsfcf01.grib2"]
  else if decide (day = "d2") then ["d2/conus/hrrr.t00z.wrfsfcf01.grib2"]
  else if decide (day = "d3") then ["d3/conus/hrrr.t00z.wrfsfcf01.grib2"]
  else [].

Definition mock_glob (pattern : string) : result (list string) :=
  if decide (pattern = "s3://noaa-hrrr-bdp-pds/hrrr.*") then Ok ["d1"; "d2"; "d3"]
  else if decide (pattern = "s3://d1/conus/*wrfsfcf01.grib2") then Ok (mock_day_files "d1")
  else if decide (pattern = "s3://d2/conus/*wrfsfcf01.grib2") then Ok (mock_day_files "d2")
  else if decide (pattern = "s3://d3/conus/*wrfsfcf01.grib2") then Ok (mock_day_files "d3")
  else Ok [].

Definition mock_ls (fs : filesystem) (path : string) : result (list string) :=
  Ok (filter (λ file, String.prefix path file = true) (elements (dom fs))).

(** The mock consolidator reads every listed sidecar and hands the contents
    on; a listed path that is not on disk makes it raise. *)
Definition mock_translate (fs : filesystem) (mzz : mzz_args) : result (list string) :=
  match mapM (λ path, fs !! path) (mzz_paths mzz) with
  | Some contents => Ok contents
  | None => Raise ExternalError
  end.

(** The environment, given the remote listing, the answer to opening a path,
    the encoder and the directory listing. *)
Definition mock_env (glob : string → result (list string))
    (open_w : string → result ()) (dumps : string → result string)
    (ls : filesystem → string → result (list string)) : External := {|
  Message := string;
  References := list string;
  Dataset := list string;
  scan_grib := mock_scan;
  ujson_dumps := dumps;
  fs_read_glob := glob;
  fs_write_open := open_w;
  fs_write_write := λ path text, Written;
  fs_write_ls := ls;
  MultiZarrToZarr_translate := mock_translate;
  open_reference_dataset := λ translated_data remote_options, Ok translated_data
|}.

Definition mock_io (glob : string → result (list string))
    (open_w : string → result ()) (dumps : string → result string) : External :=
  mock_env glob open_w dumps mock_ls.

Definition mock : External := mock_io mock_glob (λ path, Ok ()) Ok.

(** The JSON directory does not exist: no sidecar can be opened. *)
Definition mock_no_directory : External :=
  mock_io mock_glob (λ path, Raise ExternalError) Ok.

(** The listing of the JSON directory comes in the opposite order when the
    directory is named without its closing separator. *)
Definition mock_ls_unordered (fs : filesystem) (path : string)
    : result (list string) :=
  listing ← mock_ls fs path;
  Ok (if decide (path = "/tmp/jsons") then reverse listing else listing).

Definition mock_unordered : External :=
  mock_env mock_glob (λ path, Ok ()) Ok mock_ls_unordered.

(** The encoder refuses the second message of a file. *)
Definition mock_bad_encoder : External :=
  mock_io mock_glob (λ path, Ok ())
    (λ message, if decide (message = "{10m}") then Raise ExternalError else Ok message).

Definition days_2024 : list string :=
  ["noaa-hrrr-bdp-pds/hrrr.20240101";
   "noaa-hrrr-bdp-pds/hrrr.20240102";
   "noaa-hrrr-bdp-pds/hrrr.20240103"].

Definition sidecars_on_disk : filesystem :=
  {[ "/tmp/jsons/20240101_t01z_wrfsfcf01_message0.json" := "{2m}";
     "/tmp/jsons/20240101_t00z_wrfsfcf01_message1.json" := "{10m}";
     "/tmp/jsons/20240101_t00z_wrfsfcf01_message0.json" := "{2m}" ]}.

(** ** The entry point and further vocabulary *)

(** [c in s] for one character. *)
Fixpoint has_char (c : ascii) (s : string) : bool :=
  match s with
  | EmptyString => false
  | String a s' => if decide (a = c) then true else has_char c s'
  end.

(** An entry of a per-day listing, [bucket/hrrr.DATE/conus/hrrr.A.B...]:
    its second and fourth '/'-segments carry the date and the two naming
    segments. *)
Definition listed_entry (file date segA segB : string) : Prop :=
  ∃ day_dir base,
    str_split "/"%char file !! 1 = Some day_dir ∧
    str_split "."%char day_dir !! 1 = Some date ∧
    str_split "/"%char file !! 3 = Some base ∧
    str_split "."%char base !! 1 = Some segA ∧
    str_split "."%char base !! 2 = Some segB.

(** [dataset['d2m'][-1].plot()] and the encoding of the figure that
    [plt.savefig] stores: external, and free to raise. *)
Class Plotting `{ext : External} : Type := {
  render_last_d2m : Dataset → result string
}.

Section entry_point.
Context `{plt : Plotting}.

(** [main], with the sequential call commented out as in the source. The
    figure is saved on the local disk, which is the write filesystem. *)
Definition main (sched : list nat) (fs : filesystem) : result () * filesystem :=
  match find_grib_files with
  | Raise e => (Raise e, fs)
  | Ok grib_files =>
      match process_files_parallel sched grib_files fs with
      | (Raise e, fs') => (Raise e, fs')
      | (Ok _, fs') =>
          match combine_references JSON_DIR fs' with
          | Raise e => (Raise e, fs')
          | Ok dataset =>
              match render_last_d2m dataset with
              | Raise e => (Raise e, fs')
              | Ok image => (Ok (), <["d2m_plot.png" := image]> fs')
              end
          end
      end
  end.

End entry_point.

(** ** A mock remote store

    The bucket lists the three days of [days_2024]; the per-day listing works
    for the days in [reachable] and raises for every other pattern. *)

Definition mock_store_files (day : string) : list string :=
  [day +:+ "/conus/hrrr.t01z.wrfsfcf01.grib2";
   day +:+ "/conus/hrrr.t00z.wrfsfcf01.grib2"].

Definition mock_store_glob (reachable : list string) (pattern : string)
    : result (list string) :=
  if decide (pattern = "s3://noaa-hrrr-bdp-pds/hrrr.*") then Ok days_2024
  else
    match filter (λ day, pattern = "s3://" +:+ day +:+ "/conus/*wrfsfcf01.grib2")
                 reachable with
    | day :: _ => Ok (mock_store_files day)
    | [] => Raise ExternalError
    end.

Definition mock_store (reachable : list string) : External :=
  mock_io (mock_store_glob reachable) (λ path, Ok ()) Ok.

Definition mock_plotting (ext : External) : Plotting (ext := ext) :=
  {| render_last_d2m := λ dataset, Ok "PNG" |}.

(** The store with the first two days reachable, and with none. *)
Definition mock_two_days : External :=
  mock_store ["noaa-hrrr-bdp-pds/hrrr.20240101"; "noaa-hrrr-bdp-pds/hrrr.20240102"].
Definition mock_unreachable : External := mock_store [].

(** * Naming of the sidecars *)

Example split_url :
  str_split "/"%char "s3://bucket/hrrr.20240101/conus/hrrr.t00z.wrfsfcf01.grib2"
  = ["s3:"; ""; "bucket"; "hrrr.20240101"; "conus"; "hrrr.t00z.wrfsfcf01.grib2"].
Proof. reflexivity. Qed.

Example split_trailing : str_split "/"%char "a//b/" = ["a"; ""; "b"; ""].
Proof. reflexivity. Qed.

Example slice_short : slice 1 3 ["hrrr"; "t00z"] = ["t00z"].
Proof. reflexivity. Qed.

Lemma str_split_nonempty sep s : str_split sep s ≠ [].
Proof.
  destruct s as [|c s]; simpl; [done|].
  case_decide; [done|]. by destruct (str_split sep s).
Qed.

Lemma index_Ok {A} (l : list A) i x : index l i = Ok x ↔ l !! i = Some x.
Proof. unfold index. destruct (l !! i); split; congruence. Qed.

Lemma index_short {A} (l : list A) i : length l ≤ i → index l i = Raise IndexError.
Proof. intros Hi. unfold index. by rewrite (lookup_ge_None_2 l i Hi). Qed.

Lemma slice_1_3_lookup {A} (l : list A) k :
  k < 2 → slice 1 3 l !! k = l !! S k.
Proof. intros Hk. unfold slice. by rewrite lookup_take_lt, lookup_drop. Qed.

Lemma string_length_app s1 s2 :
  String.length (s1 +:+ s2) = String.length s1 + String.length s2.
Proof.
  induction s1 as [|a s1 IH]; [done|].
  change (String a s1 +:+ s2) with (String a (s1 +:+ s2)). simpl. by rewrite IH.
Qed.

Lemma string_app_inv_tail s1 s2 t : s1 +:+ t = s2 +:+ t → s1 = s2.
Proof.
  assert (Hlen : ∀ a u, t ≠ String a (u +:+ t)).
  { intros a u Heq. apply (f_equal String.length) in Heq.
    cbn in Heq. rewrite string_length_app in Heq. lia. }
  revert s2. induction s1 as [|a s1 IH]; intros [|b s2] Heq; simplify_eq/=.
  - done.
  - by destruct (Hlen b s2).
  - by destruct (Hlen a s1).
  - f_equal. auto.
Qed.

(** On a path with the positional segments the code returns the name of
    the specification. *)
Lemma make_json_name_segments file_url date segA segB n :
  path_segments file_url date segA segB →
  make_json_name file_url n = Ok (sidecar_path date segA segB n).
Proof.
  intros (day_dir & base & H3 & Hdate & H5 & HA & HB).
  unfold make_json_name.
  rewrite (proj2 (index_Ok _ _ _) H3). simpl.
  rewrite (proj2 (index_Ok _ _ _) Hdate). simpl.
  rewrite (proj2 (index_Ok _ _ _) H5). simpl.
  assert (index (slice 1 3 (str_split "."%char base)) 0 = Ok segA) as ->.
  { apply index_Ok. by rewrite slice_1_3_lookup by lia. }
  assert (index (slice 1 3 (str_split "."%char base)) 1 = Ok segB) as ->.
  { apply index_Ok. by rewrite slice_1_3_lookup by lia. }
  done.
Qed.

(** Conversely a returned name comes from such segments. *)
Lemma make_json_name_Ok_inv file_url n name :
  make_json_name file_url n = Ok name →
  ∃ date segA segB,
    path_segments file_url date segA segB ∧ name = sidecar_path date segA segB n.
Proof.
  unfold make_json_name. intros Hname.
  destruct (index (str_split "/"%char file_url) 3) as [day_dir|] eqn:H3; [|done].
  simpl in Hname.
  destruct (index (str_split "."%char day_dir) 1) as [date|] eqn:Hdate; [|done].
  simpl in Hname.
  destruct (index (str_split "/"%char file_url) 5) as [base|] eqn:H5; [|done].
  simpl in Hname.
  destruct (index (slice 1 3 (str_split "."%char base)) 0) as [segA|] eqn:HA; [|done].
  simpl in Hname.
  destruct (index (slice 1 3 (str_split "."%char base)) 1) as [segB|] eqn:HB; [|done].
  simpl in Hname. injection Hname as <-.
  apply index_Ok in H3, Hdate, H5, HA, HB.
  rewrite slice_1_3_lookup in HA, HB by lia.
  exists date, segA, segB. split; [|done]. by exists day_dir, base.
Qed.

Lemma well_formed_iff file_url n :
  well_formed file_url ↔ ∃ name, make_json_name file_url n = Ok name.
Proof.
  split.
  - intros (date & segA & segB & Hseg). eauto using make_json_name_segments.
  - intros [name Hname]. apply make_json_name_Ok_inv in Hname.
    destruct Hname as (date & segA & segB & Hseg & _). by exists date, segA, segB.
Qed.

Lemma sidecar_path_inj date segA segB : Inj (=) (=) (sidecar_path date segA segB).
Proof.
  intros n1 n2 Heq. unfold sidecar_path in Heq.
  do 7 apply String.app_inj in Heq.
  apply string_app_inv_tail in Heq. by apply (inj pretty).
Qed.

(** C1. For the path
    s3://bucket/hrrr.20240101/conus/hrrr.t00z.wrfsfcf01.grib2 and message
    index 3, make_json_name returns the JSON directory prefix followed by
    20240101_t00z_wrfsfcf01_message3.json. *)
Theorem make_json_name_example :
  make_json_name "s3://bucket/hrrr.20240101/conus/hrrr.t00z.wrfsfcf01.grib2" 3
  = Ok (JSON_DIR +:+ "20240101_t00z_wrfsfcf01_message3.json")
  ∧ JSON_DIR +:+ "20240101_t00z_wrfsfcf01_message3.json"
    = "/tmp/jsons/20240101_t00z_wrfsfcf01_message3.json".
Proof. split; vm_compute; reflexivity. Qed.

(** C6. A path with fewer than six '/'-separated segments makes
    make_json_name raise IndexError instead of returning a name. *)
Theorem make_json_name_too_few_segments file_url message_number :
  length (str_split "/"%char file_url) < 6 →
  make_json_name file_url message_number = Raise IndexError.
Proof.
  intros Hlen. unfold make_json_name.
  destruct (index (str_split "/"%char file_url) 3) as [day_dir|e] eqn:H3; simpl.
  - destruct (index (str_split "."%char day_dir) 1) as [date|e] eqn:Hdate; simpl.
    + rewrite index_short by lia. done.
    + unfold index in Hdate. by destruct (_ !! 1); simplify_eq.
  - unfold index in H3. by destruct (_ !! 3); simplify_eq.
Qed.

Lemma make_json_name_too_few_segments_witness :
  length (str_split "/"%char "s3://bucket/hrrr.t00z.wrfsfcf01.grib2") < 6
  ∧ make_json_name "s3://bucket/hrrr.t00z.wrfsfcf01.grib2" 0 = Raise IndexError.
Proof.
  split; [vm_compute; lia|].
  apply make_json_name_too_few_segments. vm_compute; lia.
Defined.

(** C9. The name does not depend on the bucket: two well-formed URLs that
    differ only in their third '/'-separated segment get the same name for
    every message index. *)
Theorem make_json_name_ignores_bucket url1 url2 message_number :
  well_formed url1 →
  differ_only_in_bucket url1 url2 →
  ∃ name,
    make_json_name url1 message_number = Ok name ∧
    make_json_name url2 message_number = Ok name.
Proof.
  intros Hwf (scheme & empty & b1 & b2 & rest & Hs1 & Hs2).
  apply (well_formed_iff _ message_number) in Hwf as [name Hname].
  exists name. split; [done|]. rewrite <-Hname.
  unfold make_json_name. by rewrite Hs1, Hs2.
Qed.

Lemma make_json_name_ignores_bucket_witness :
  "s3://east/hrrr.20240101/conus/hrrr.t00z.wrfsfcf01.grib2"
    ≠ "s3://west/hrrr.20240101/conus/hrrr.t00z.wrfsfcf01.grib2"
  ∧ ∃ name,
      make_json_name "s3://east/hrrr.20240101/conus/hrrr.t00z.wrfsfcf01.grib2" 0 = Ok name ∧
      make_json_name "s3://west/hrrr.20240101/conus/hrrr.t00z.wrfsfcf01.grib2" 0 = Ok name.
Proof.
  split; [done|].
  apply make_json_name_ignores_bucket.
  - exists "20240101", "t00z", "wrfsfcf01".
    exists "hrrr.20240101", "hrrr.t00z.wrfsfcf01.grib2". repeat split; reflexivity.
  - exists "s3:", "", "east", "west",
      ["hrrr.20240101"; "conus"; "hrrr.t00z.wrfsfcf01.grib2"].
    split; reflexivity.
Defined.

(** C10. On a well-formed path make_json_name is injective in the message
    index, so the sidecars of one source file get pairwise distinct names. *)
Theorem make_json_name_index_inj file_url n1 n2 :
  well_formed file_url →
  n1 ≠ n2 →
  ∃ name1 name2,
    make_json_name file_url n1 = Ok name1 ∧
    make_json_name file_url n2 = Ok name2 ∧
    name1 ≠ name2.
Proof.
  intros (date & segA & segB & Hseg) Hne.
  exists (sidecar_path date segA segB n1), (sidecar_path date segA segB n2).
  rewrite !(make_json_name_segments _ _ _ _ _ Hseg).
  split_and!; [done..|].
  intros Heq. by apply sidecar_path_inj in Heq.
Qed.

Lemma make_json_name_index_inj_witness :
  ∃ name1 name2,
    make_json_name "s3://bucket/hrrr.20240101/conus/hrrr.t00z.wrfsfcf01.grib2" 0 = Ok name1 ∧
    make_json_name "s3://bucket/hrrr.20240101/conus/hrrr.t00z.wrfsfcf01.grib2" 1 = Ok name2 ∧
    name1 ≠ name2.
Proof.
  apply make_json_name_index_inj.
  - exists "20240101", "t00z", "wrfsfcf01".
    exists "hrrr.20240101", "hrrr.t00z.wrfsfcf01.grib2". repeat split; reflexivity.
  - lia.
Defined.

(** * Extraction *)

Section extraction.
Context `{ext : External}.

Lemma apply_writes_lookup_notin log fs path :
  path ∉ log.*1 → apply_writes log fs !! path = fs !! path.
Proof.
  revert fs. induction log as [|w log IH]; intros fs Hnotin; [done|].
  rewrite fmap_cons, not_elem_of_cons in Hnotin. destruct Hnotin as [Hne Hnotin].
  unfold apply_writes in *. simpl. rewrite IH by done.
  by rewrite lookup_insert_ne.
Qed.

Lemma apply_writes_lookup_in log fs path content :
  NoDup log.*1 → (path, content) ∈ log →
  apply_writes log fs !! path = Some content.
Proof.
  revert fs. induction log as [|w log IH]; intros fs Hnodup Hin.
  { by apply elem_of_nil in Hin. }
  rewrite fmap_cons, NoDup_cons in Hnodup. destruct Hnodup as [Hfresh Hnodup].
  apply elem_of_cons in Hin as [<-|Hin].
  - change (apply_writes log (<[path := content]> fs) !! path = Some content).
    rewrite apply_writes_lookup_notin by done. apply lookup_insert_eq.
  - by apply (IH (<[w.1 := w.2]> fs)).
Qed.

Lemma apply_writes_app log1 log2 fs :
  apply_writes (log1 ++ log2) fs = apply_writes log2 (apply_writes log1 fs).
Proof. apply foldl_app. Qed.

Lemma dom_apply_writes log fs :
  dom (apply_writes log fs) = dom fs ∪ list_to_set log.*1.
Proof.
  revert fs. induction log as [|w log IH]; intros fs; simpl.
  - apply set_eq. intros path.
    rewrite elem_of_union, elem_of_empty. tauto.
  - unfold apply_writes in *. simpl. rewrite IH, dom_insert_L.
    apply set_eq. intros path. rewrite !elem_of_union. tauto.
Qed.

Lemma write_sidecar_effect json_file_name message fs :
  write_sidecar json_file_name message fs
  = ((sidecar_effect json_file_name message).1,
     apply_writes (sidecar_effect json_file_name message).2 fs).
Proof.
  unfold write_sidecar, sidecar_effect.
  destruct (fs_write_open json_file_name) as [[]|e]; [|done].
  destruct (ujson_dumps message) as [text|e]; [|done].
  destruct (fs_write_write json_file_name text) as [|e kept]; simpl;
    unfold apply_writes; simpl; by rewrite insert_insert_eq.
Qed.

(** One [with] block leaves nothing and raises, or leaves one content under
    its own name. *)
Lemma sidecar_effect_shape json_file_name message :
  ((sidecar_effect json_file_name message).2 = [] ∧
   ∃ e, (sidecar_effect json_file_name message).1 = Raise e) ∨
  ∃ content, (sidecar_effect json_file_name message).2 = [(json_file_name, content)].
Proof.
  unfold sidecar_effect.
  destruct (fs_write_open json_file_name) as [[]|e]; [|left; eauto].
  destruct (ujson_dumps message) as [text|e]; [|right; eauto].
  destruct (fs_write_write json_file_name text) as [|e kept]; right; eauto.
Qed.

Lemma write_sidecar_writable json_file_name message text fs :
  writable json_file_name message text →
  write_sidecar json_file_name message fs = (Ok (), <[json_file_name := text]> fs).
Proof.
  intros (Hopen & Hdumps & Hwrite). unfold write_sidecar.
  rewrite Hopen, Hdumps, Hwrite. by rewrite insert_insert_eq.
Qed.

Lemma write_messages_writes file_url i references fs :
  (write_messages file_url i references fs).2
  = apply_writes (loop_writes file_url i references) fs.
Proof.
  revert i fs. induction references as [|message rest IH]; intros i fs; [done|].
  simpl. destruct (make_json_name file_url (Z.of_nat i)) as [name|e]; [|done].
  rewrite write_sidecar_effect.
  destruct (sidecar_effect name message) as [[[]|e] kept]; simpl; [|done].
  by rewrite IH, apply_writes_app.
Qed.

Lemma sidecar_names_NoDup date segA segB i n :
  NoDup ((λ k, sidecar_path date segA segB (Z.of_nat k)) <$> seq i n).
Proof.
  apply NoDup_fmap_2; [|apply NoDup_seq].
  intros k1 k2 Heq. apply sidecar_path_inj in Heq. lia.
Qed.

(** On a path with the positional segments the loop opens the indexed
    names, each once. *)
Lemma loop_writes_names file_url date segA segB i references :
  path_segments file_url date segA segB →
  NoDup (loop_writes file_url i references).*1 ∧
  ∀ path, path ∈ (loop_writes file_url i references).*1 →
    ∃ k, i ≤ k < i + length references ∧
         path = sidecar_path date segA segB (Z.of_nat k).
Proof.
  intros Hseg. revert i.
  induction references as [|message rest IH]; intros i.
  { split; [constructor|]. intros path Hin. by apply elem_of_nil in Hin. }
  simpl. rewrite (make_json_name_segments _ _ _ _ _ Hseg).
  destruct (IH (S i)) as [Hnodup Hnames].
  destruct (sidecar_effect_shape (sidecar_path date segA segB (Z.of_nat i)) message)
    as [[Hnil [e He]]|[content Hone]];
    destruct (sidecar_effect (sidecar_path date segA segB (Z.of_nat i)) message)
      as [[[]|e'] kept]; simpl in *; subst kept.
  - discriminate.
  - split; [constructor|]. intros path Hin. by apply elem_of_nil in Hin.
  - split.
    + apply NoDup_cons. split; [|done].
      intros Hin. apply Hnames in Hin as (k & Hk & Heq).
      apply sidecar_path_inj in Heq. lia.
    + intros path Hin. apply elem_of_cons in Hin as [->|Hin].
      * exists i. split; [lia|done].
      * apply Hnames in Hin as (k & Hk & ->). exists k. split; [lia|done].
  - split; [apply NoDup_singleton|].
    intros path Hin. apply list_elem_of_singleton in Hin as ->.
    exists i. split; [lia|done].
Qed.

(** When every sidecar can be stored, the loop stores every one. *)
Lemma write_messages_all_written file_url date segA segB i references fs :
  path_segments file_url date segA segB →
  (∀ k message, references !! k = Some message →
     ∃ text, writable (sidecar_path date segA segB (Z.of_nat (i + k))) message text) →
  ∃ fs',
    write_messages file_url i references fs = (Ok (), fs') ∧
    (∀ k message, references !! k = Some message →
       ∃ text, ujson_dumps message = Ok text ∧
               fs' !! sidecar_path date segA segB (Z.of_nat (i + k)) = Some text) ∧
    (∀ path,
       (∀ k, k < length references →
          path ≠ sidecar_path date segA segB (Z.of_nat (i + k))) →
       fs' !! path = fs !! path).
Proof.
  intros Hseg. revert i fs.
  induction references as [|message rest IH]; intros i fs Hwritable.
  { exists fs. split_and!; [done| |done]. intros k m Hk. by rewrite lookup_nil in Hk. }
  destruct (Hwritable 0 message eq_refl) as [text Hhead].
  rewrite Nat.add_0_r in Hhead.
  destruct (IH (S i) (<[sidecar_path date segA segB (Z.of_nat i) := text]> fs))
    as (fs' & Hrun & Hstored & Hframe).
  { intros k m Hk. destruct (Hwritable (S k) m Hk) as [t Ht].
    exists t. by replace (S i + k) with (i + S k) by lia. }
  exists fs'. split_and!.
  - simpl. rewrite (make_json_name_segments _ _ _ _ _ Hseg).
    by rewrite (write_sidecar_writable _ _ _ _ Hhead).
  - intros [|k] m Hk.
    + simpl in Hk. injection Hk as <-. exists text.
      split; [apply Hhead|]. rewrite Nat.add_0_r, Hframe; [apply lookup_insert_eq|].
      intros k _ Heq. apply sidecar_path_inj in Heq. lia.
    + destruct (Hstored k m Hk) as (t & Hdumps & Hlookup). exists t.
      split; [done|]. by replace (i + S k) with (S i + k) by lia.
  - intros path Hpath. rewrite Hframe.
    + apply lookup_insert_ne. intros <-.
      apply (Hpath 0); [simpl; lia|by rewrite Nat.add_0_r].
    + intros k Hk. replace (S i + k) with (i + S k) by lia.
      apply Hpath. simpl. lia.
Qed.

(** C5. For a scanned source file with the positional segments date, segA and
    segB whose sidecars can be opened, encoded and written,
    generate_json_files stores the n-th message record (counting from zero)
    at <json_dir>/<date>_<segA>_<segB>_message<n>.json, touches no other
    path, and these names are pairwise distinct: one sidecar per record. *)
Theorem generate_json_files_sidecars file_url references date segA segB fs :
  scan_grib file_url STORAGE_OPTIONS FILTER_CONDITIONS = Ok references →
  path_segments file_url date segA segB →
  (∀ n message, references !! n = Some message →
     ∃ text, writable (sidecar_path date segA segB (Z.of_nat n)) message text) →
  ∃ fs',
    generate_json_files file_url fs = (Ok (), fs') ∧
    (∀ n message, references !! n = Some message →
       ∃ text, ujson_dumps message = Ok text ∧
               fs' !! sidecar_path date segA segB (Z.of_nat n) = Some text) ∧
    (∀ path,
       (∀ n, n < length references → path ≠ sidecar_path date segA segB (Z.of_nat n)) →
       fs' !! path = fs !! path) ∧
    NoDup ((λ n, sidecar_path date segA segB (Z.of_nat n))
             <$> seq 0 (length references)).
Proof.
  intros Hscan Hseg Hwritable.
  destruct (write_messages_all_written file_url date segA segB 0 references fs Hseg)
    as (fs' & Hrun & Hstored & Hframe); [done|].
  exists fs'. unfold generate_json_files. rewrite Hscan.
  split_and!; [done|done|done|apply sidecar_names_NoDup].
Qed.

(** C7. On the empty file list the sequential run and every run of the
    pool return normally and leave the filesystem as it was. *)
Theorem process_files_empty sched fs :
  process_files [] fs = (Ok (), fs) ∧
  process_files_parallel sched [] fs = (Ok (), fs).
Proof.
  split; [done|].
  unfold process_files_parallel. simpl.
  assert (run_schedule sched [] fs = ([], fs)) as ->; [|done].
  induction sched as [|k sched IH]; [done|]. simpl. done.
Qed.

(** ** Sequential run against the pool *)

Lemma pool_writes_cons t pool :
  pool_writes (t :: pool) = task_writes t ++ pool_writes pool.
Proof. done. Qed.

Lemma pool_writes_app pool1 pool2 :
  pool_writes (pool1 ++ pool2) = pool_writes pool1 ++ pool_writes pool2.
Proof. apply bind_app. Qed.

Lemma task_finish_writes t fs :
  (task_finish t fs).2 = apply_writes (task_writes t) fs.
Proof.
  destruct t as [file_url|file_url i rest|outcome]; simpl; [|..|done].
  - unfold generate_json_files.
    destruct (scan_grib file_url STORAGE_OPTIONS FILTER_CONDITIONS); [|done].
    apply write_messages_writes.
  - apply write_messages_writes.
Qed.

Lemma shutdown_wait_writes pool fs :
  shutdown_wait pool fs = apply_writes (pool_writes pool) fs.
Proof.
  revert fs. induction pool as [|t pool IH]; intros fs; [done|].
  rewrite pool_writes_cons, apply_writes_app, <-task_finish_writes. apply IH.
Qed.

Lemma process_files_writes file_list fs fs' :
  process_files file_list fs = (Ok (), fs') →
  fs' = apply_writes (pool_writes (Submitted <$> file_list)) fs.
Proof.
  revert fs. induction file_list as [|file_url rest IH]; intros fs Hrun.
  { by injection Hrun as <-. }
  simpl in Hrun.
  pose proof (task_finish_writes (Submitted file_url) fs) as Hone. simpl in Hone.
  destruct (generate_json_files file_url fs) as [[[]|e] fs1]; [|done].
  simpl in Hone. subst fs1. apply IH in Hrun.
  change (pool_writes (Submitted <$> file_url :: rest))
    with (task_writes (Submitted file_url) ++ pool_writes (Submitted <$> rest)).
  by rewrite apply_writes_app.
Qed.

(** The task machine runs the code of generate_json_files: a quantum
    followed by the rest of the task is the whole task. *)
Lemma task_step_finish t fs :
  task_finish (task_step t fs).1 (task_step t fs).2 = task_finish t fs.
Proof.
  destruct t as [file_url|file_url i [|message rest]|outcome]; simpl; [|done| |done].
  - unfold generate_json_files.
    by destruct (scan_grib file_url STORAGE_OPTIONS FILTER_CONDITIONS).
  - destruct (make_json_name file_url (Z.of_nat i)) as [name|e]; [|done].
    by destruct (write_sidecar name message fs) as [[[]|e] fs'].
Qed.

(** A quantum either leaves nothing, or leaves the first pending content of
    its task. *)
Lemma task_step_writes t fs :
  (task_writes (task_step t fs).1 = task_writes t ∧ (task_step t fs).2 = fs) ∨
  (∃ w, task_writes t = w :: task_writes (task_step t fs).1 ∧
        (task_step t fs).2 = <[w.1 := w.2]> fs).
Proof.
  destruct t as [file_url|file_url i [|message rest]|outcome]; simpl.
  - left. by destruct (scan_grib file_url STORAGE_OPTIONS FILTER_CONDITIONS).
  - by left.
  - destruct (make_json_name file_url (Z.of_nat i)) as [name|e]; simpl; [|by left].
    rewrite write_sidecar_effect.
    destruct (sidecar_effect_shape name message) as [[Hnil [e He]]|[content Hone]];
      destruct (sidecar_effect name message) as [[[]|e'] kept];
      simpl in *; subst kept.
    + discriminate.
    + by left.
    + right. by exists (name, content).
    + right. by exists (name, content).
  - by left.
Qed.

Lemma apply_writes_move_front log1 w log2 fs :
  w.1 ∉ log1.*1 →
  apply_writes (log1 ++ w :: log2) fs
  = apply_writes (log1 ++ log2) (<[w.1 := w.2]> fs).
Proof.
  revert fs. induction log1 as [|a log1 IH]; intros fs Hfresh; [done|].
  rewrite fmap_cons, not_elem_of_cons in Hfresh. destruct Hfresh as [Hne Hfresh].
  change (apply_writes (log1 ++ w :: log2) (<[a.1 := a.2]> fs)
          = apply_writes (log1 ++ log2) (<[a.1 := a.2]> (<[w.1 := w.2]> fs))).
  rewrite IH by done. f_equal. by apply insert_insert_ne.
Qed.

Lemma pool_writes_step pool k t t' :
  pool !! k = Some t →
  pool_writes pool
    = pool_writes (take k pool) ++ task_writes t ++ pool_writes (drop (S k) pool) ∧
  pool_writes (<[k := t']> pool)
    = pool_writes (take k pool) ++ task_writes t' ++ pool_writes (drop (S k) pool).
Proof.
  intros Hk. split.
  - rewrite <-(take_drop_middle pool k t Hk) at 1.
    by rewrite pool_writes_app, pool_writes_cons.
  - rewrite insert_take_drop by (by eapply lookup_lt_Some).
    by rewrite pool_writes_app, pool_writes_cons.
Qed.

(** Whatever the schedule, the names on disk and still to come are the
    same set. *)
Lemma run_schedule_dom sched pool fs :
  dom (run_schedule sched pool fs).2
    ∪ list_to_set (pool_writes (run_schedule sched pool fs).1).*1
  = dom fs ∪ list_to_set (pool_writes pool).*1.
Proof.
  revert pool fs. induction sched as [|k sched IH]; intros pool fs; [done|].
  simpl. destruct (pool !! k) as [t|] eqn:Hk; [|apply IH].
  destruct (task_step t fs) as [t' fs'] eqn:Hstep.
  rewrite IH.
  destruct (pool_writes_step pool k t t' Hk) as [-> ->].
  pose proof (task_step_writes t fs) as Hw. rewrite Hstep in Hw. simpl in Hw.
  destruct Hw as [[-> ->]|(w & -> & ->)]; [done|].
  rewrite dom_insert_L, !fmap_app, fmap_cons, !list_to_set_app_L, list_to_set_cons.
  apply set_eq. intros path. rewrite !elem_of_union. tauto.
Qed.

(** With pairwise distinct names the schedule does not change the final
    content either. *)
Lemma run_schedule_writes sched pool fs :
  NoDup (pool_writes pool).*1 →
  apply_writes (pool_writes (run_schedule sched pool fs).1)
               (run_schedule sched pool fs).2
  = apply_writes (pool_writes pool) fs.
Proof.
  revert pool fs. induction sched as [|k sched IH]; intros pool fs Hnodup; [done|].
  simpl. destruct (pool !! k) as [t|] eqn:Hk; [|by apply IH].
  destruct (task_step t fs) as [t' fs'] eqn:Hstep.
  destruct (pool_writes_step pool k t t' Hk) as [Hpool Hpool'].
  pose proof (task_step_writes t fs) as Hw. rewrite Hstep in Hw. simpl in Hw.
  destruct Hw as [[Heq ->]|(w & Heq & ->)].
  - rewrite IH; [by rewrite Hpool, Hpool', Heq|].
    by rewrite Hpool', Heq, <-Hpool.
  - rewrite Hpool, Heq in Hnodup.
    rewrite fmap_app, NoDup_app in Hnodup.
    destruct Hnodup as (Hnd1 & Hdisj & Hnd2).
    rewrite <-app_comm_cons, fmap_cons, NoDup_cons in Hnd2.
    destruct Hnd2 as [Hfresh Hnd2].
    rewrite IH.
    + rewrite Hpool, Hpool', Heq, <-app_comm_cons.
      symmetry. apply apply_writes_move_front.
      intros Hin. apply (Hdisj _ Hin).
      rewrite <-app_comm_cons, fmap_cons. apply elem_of_cons. by left.
    + rewrite Hpool', fmap_app, NoDup_app. split_and!; [done| |done].
      intros x Hx Hx'. apply (Hdisj x Hx).
      rewrite <-app_comm_cons, fmap_cons. apply elem_of_cons. by right.
Qed.

(** The pool always returns normally; with pairwise distinct names it
    performs every write of every task, whatever the schedule. *)
Lemma process_files_parallel_writes sched file_list fs :
  NoDup (written_names file_list) →
  process_files_parallel sched file_list fs
  = (Ok (), apply_writes (pool_writes (Submitted <$> file_list)) fs).
Proof.
  intros Hnodup. unfold process_files_parallel.
  pose proof (run_schedule_writes sched (Submitted <$> file_list) fs Hnodup) as Hwrites.
  destruct (run_schedule sched (Submitted <$> file_list) fs) as [pool fs'].
  simpl in Hwrites. by rewrite shutdown_wait_writes, Hwrites.
Qed.

(** C4, as the code has it. When the sequential run returns normally, every
    run of the pool returns normally with the same set of file names, and
    with the same content under each name provided the names written for
    the file list are pairwise distinct. *)
Theorem process_files_parallel_agrees sched file_list fs fs_seq :
  process_files file_list fs = (Ok (), fs_seq) →
  ∃ fs_par,
    process_files_parallel sched file_list fs = (Ok (), fs_par) ∧
    dom fs_par = dom fs_seq ∧
    (NoDup (written_names file_list) → fs_par = fs_seq).
Proof.
  intros Hseq. apply process_files_writes in Hseq. subst fs_seq.
  unfold process_files_parallel.
  pose proof (run_schedule_dom sched (Submitted <$> file_list) fs) as Hdom.
  pose proof (run_schedule_writes sched (Submitted <$> file_list) fs) as Hwrites.
  destruct (run_schedule sched (Submitted <$> file_list) fs) as [pool fs'].
  simpl in Hdom, Hwrites.
  exists (shutdown_wait pool fs'). rewrite shutdown_wait_writes.
  split_and!; [done| |done].
  by rewrite !dom_apply_writes.
Qed.

End extraction.

(** * Discovery *)

Section discovery.
Context `{ext : External}.

Lemma cap_days_take available_days :
  cap_days available_days = take MAX_DAYS available_days.
Proof.
  unfold cap_days. case_decide as Hlen; [done|].
  symmetry. apply take_ge. lia.
Qed.

Lemma day_files_Ok days (files : string → list string) :
  (∀ day, day ∈ days →
     fs_read_glob ("s3://" +:+ day +:+ "/conus/*wrfsfcf01.grib2") = Ok (files day)) →
  day_files days = Ok (days ≫= λ day, (λ file, "s3://" +:+ file) <$> files day).
Proof.
  induction days as [|day rest IH]; intros Hglob; [done|].
  simpl. rewrite (Hglob day) by (apply elem_of_cons; by left). simpl.
  rewrite IH; [done|].
  intros day' Hday'. apply Hglob. apply elem_of_cons. by right.
Qed.

Lemma sorted_Sorted l : Sorted String.le (sorted l).
Proof. apply (Sorted_merge_sort String.le). Qed.

Lemma sorted_Permutation l : sorted l ≡ₚ l.
Proof. apply (merge_sort_Permutation String.le). Qed.

(** C2. Whatever the listing of day directories, find_grib_files returns
    exactly the files listed under its first two entries, each prefixed
    with s3://, as a lexicographically sorted sequence. *)
Theorem find_grib_files_first_days_sorted listing (files : string → list string) :
  fs_read_glob "s3://noaa-hrrr-bdp-pds/hrrr.*" = Ok listing →
  (∀ day, day ∈ take 2 listing →
     fs_read_glob ("s3://" +:+ day +:+ "/conus/*wrfsfcf01.grib2") = Ok (files day)) →
  ∃ paths,
    find_grib_files = Ok paths ∧
    Sorted String.le paths ∧
    paths ≡ₚ (take 2 listing ≫= λ day, (λ file, "s3://" +:+ file) <$> files day).
Proof.
  intros Hdays Hfiles.
  exists (sorted (take 2 listing ≫= λ day, (λ file, "s3://" +:+ file) <$> files day)).
  split_and!.
  - unfold find_grib_files. rewrite Hdays. simpl.
    rewrite cap_days_take. change MAX_DAYS with 2.
    by rewrite (day_files_Ok _ files Hfiles).
  - apply sorted_Sorted.
  - apply sorted_Permutation.
Qed.

(** An empty listing of days gives an empty file list, without an error. *)
Lemma find_grib_files_empty_listing :
  fs_read_glob "s3://noaa-hrrr-bdp-pds/hrrr.*" = Ok [] →
  find_grib_files = Ok [].
Proof. intros Hdays. unfold find_grib_files. by rewrite Hdays. Qed.

(** C3, as the code has it. The cap keeps the first MAX_DAYS entries of the
    listing, in the order the listing call returned them. *)
Theorem cap_days_keeps_listing_prefix available_days :
  cap_days available_days = take MAX_DAYS available_days ∧
  length (cap_days available_days) = MAX_DAYS `min` length available_days.
Proof.
  rewrite cap_days_take. split; [done|]. apply length_take.
Qed.

(** ** Combination *)

(** C8. Whatever fs_write.ls returns for the directory, the consolidator,
    which reads the write filesystem, receives that listing sorted
    lexicographically, with valid_time as the
    only concatenation dimension and latitude, longitude, heightAboveGround
    and step as the identical dimensions. *)
Theorem combine_references_consolidator_call json_dir fs listing :
  fs_write_ls fs json_dir = Ok listing →
  ∃ mzz,
    consolidator_call json_dir fs = Ok mzz ∧
    combine_references json_dir fs
      = (MultiZarrToZarr_translate fs mzz ≫= λ translated_data,
           open_reference_dataset translated_data STORAGE_OPTIONS) ∧
    Sorted String.le (mzz_paths mzz) ∧
    mzz_paths mzz ≡ₚ listing ∧
    concat_dims mzz = ["valid_time"] ∧
    identical_dims mzz = ["latitude"; "longitude"; "heightAboveGround"; "step"].
Proof.
  intros Hls. eexists. split.
  - unfold consolidator_call. rewrite Hls. reflexivity.
  - split_and!; simpl.
    + unfold combine_references, consolidator_call. by rewrite Hls.
    + apply sorted_Sorted.
    + apply sorted_Permutation.
    + done.
    + done.
Qed.

End discovery.

(** * The pipeline on the mock environment *)

Example mock_find_grib_files :
  find_grib_files (ext := mock)
  = Ok ["s3://d1/conus/hrrr.t00z.wrfsfcf01.grib2";
        "s3://d1/conus/hrrr.t01z.wrfsfcf01.grib2";
        "s3://d2/conus/hrrr.t00z.wrfsfcf01.grib2"].
Proof. vm_compute. reflexivity. Qed.

Example mock_generate_json_files :
  generate_json_files (ext := mock) url_t00z ∅
  = (Ok (),
     {[ "/tmp/jsons/20240101_t00z_wrfsfcf01_message0.json" := "{2m}";
        "/tmp/jsons/20240101_t00z_wrfsfcf01_message1.json" := "{10m}" ]}).
Proof. vm_compute. reflexivity. Qed.

Example mock_generate_json_files_malformed :
  generate_json_files (ext := mock) "s3://bucket/hrrr.t00z.wrfsfcf01.grib2" ∅
  = (Raise IndexError, ∅).
Proof. vm_compute. reflexivity. Qed.

Lemma url_t00z_segments : path_segments url_t00z "20240101" "t00z" "wrfsfcf01".
Proof.
  exists "hrrr.20240101", "hrrr.t00z.wrfsfcf01.grib2".
  repeat split; reflexivity.
Defined.

Lemma find_grib_files_first_days_sorted_witness :
  ∃ paths,
    find_grib_files (ext := mock) = Ok paths ∧
    Sorted String.le paths ∧
    paths ≡ₚ (take 2 ["d1"; "d2"; "d3"] ≫= λ day,
               (λ file, "s3://" +:+ file) <$> mock_day_files day).
Proof.
  apply (find_grib_files_first_days_sorted (ext := mock) ["d1"; "d2"; "d3"] mock_day_files).
  - reflexivity.
  - intros day Hday. simpl in Hday.
    apply elem_of_cons in Hday as [->|Hday]; [reflexivity|].
    apply elem_of_cons in Hday as [->|Hday]; [reflexivity|].
    by apply elem_of_nil in Hday.
Defined.

Lemma combine_references_consolidator_call_witness :
  ∃ mzz,
    consolidator_call (ext := mock) JSON_DIR sidecars_on_disk = Ok mzz ∧
    combine_references (ext := mock) JSON_DIR sidecars_on_disk
      = (MultiZarrToZarr_translate sidecars_on_disk mzz ≫= λ translated_data,
           open_reference_dataset translated_data STORAGE_OPTIONS) ∧
    Sorted String.le (mzz_paths mzz) ∧
    mzz_paths mzz ≡ₚ elements (dom sidecars_on_disk) ∧
    concat_dims mzz = ["valid_time"] ∧
    identical_dims mzz = ["latitude"; "longitude"; "heightAboveGround"; "step"].
Proof.
  apply (combine_references_consolidator_call (ext := mock)).
  vm_compute. reflexivity.
Defined.

Example mock_consolidator_call :
  consolidator_call (ext := mock) JSON_DIR sidecars_on_disk
  = Ok {| mzz_paths := ["/tmp/jsons/20240101_t00z_wrfsfcf01_message0.json";
                        "/tmp/jsons/20240101_t00z_wrfsfcf01_message1.json";
                        "/tmp/jsons/20240101_t01z_wrfsfcf01_message0.json"];
          concat_dims := ["valid_time"];
          identical_dims := ["latitude"; "longitude"; "heightAboveGround"; "step"] |}.
Proof. vm_compute. reflexivity. Qed.

Lemma generate_json_files_sidecars_witness :
  ∃ fs',
    generate_json_files (ext := mock) url_t00z ∅ = (Ok (), fs') ∧
    (∀ n message, ["{2m}"; "{10m}"] !! n = Some message →
       ∃ text,
         ujson_dumps (External := mock) message = Ok text ∧
         fs' !! sidecar_path "20240101" "t00z" "wrfsfcf01" (Z.of_nat n) = Some text) ∧
    (∀ path,
       (∀ n, n < 2 → path ≠ sidecar_path "20240101" "t00z" "wrfsfcf01" (Z.of_nat n)) →
       fs' !! path = (∅ : filesystem) !! path) ∧
    NoDup ((λ n, sidecar_path "20240101" "t00z" "wrfsfcf01" (Z.of_nat n)) <$> seq 0 2).
Proof.
  apply (generate_json_files_sidecars (ext := mock) url_t00z ["{2m}"; "{10m}"]
           "20240101" "t00z" "wrfsfcf01" ∅).
  - reflexivity.
  - exact url_t00z_segments.
  - intros n message Hn. exists message. repeat split; reflexivity.
Defined.

Lemma process_files_parallel_agrees_witness :
  ∃ fs_par,
    process_files_parallel (ext := mock) [1; 0; 1; 1; 0] [url_t00z; url_t01z] ∅
      = (Ok (), fs_par) ∧
    dom fs_par = dom (process_files (ext := mock) [url_t00z; url_t01z] ∅).2 ∧
    (NoDup (written_names (ext := mock) [url_t00z; url_t01z]) →
     fs_par = (process_files (ext := mock) [url_t00z; url_t01z] ∅).2).
Proof.
  apply (process_files_parallel_agrees (ext := mock)).
  vm_compute. reflexivity.
Defined.

Example mock_written_names_NoDup :
  NoDup (written_names (ext := mock) [url_t00z; url_t01z]).
Proof. vm_compute. repeat constructor; rewrite ?elem_of_cons, elem_of_nil; intuition discriminate. Qed.

(** The scanner fails on the first file: the sequential run stops there and
    writes nothing, the pool keeps the failure in a future nobody reads and
    still writes the sidecars of the second file. *)
Lemma process_files_parallel_differs :
  process_files (ext := mock) [url_unreadable; url_t00z] ∅
    = (Raise ExternalError, ∅) ∧
  process_files_parallel (ext := mock) [1; 0; 1; 1; 1] [url_unreadable; url_t00z] ∅
    = (Ok (),
       {[ "/tmp/jsons/20240101_t00z_wrfsfcf01_message0.json" := "{2m}";
          "/tmp/jsons/20240101_t00z_wrfsfcf01_message1.json" := "{10m}" ]}) ∧
  dom (process_files (ext := mock) [url_unreadable; url_t00z] ∅).2
    ≠ dom (process_files_parallel (ext := mock) [1; 0; 1; 1; 1]
             [url_unreadable; url_t00z] ∅).2 ∧
  (∀ sched,
     process_files_parallel (ext := mock) sched [url_unreadable; url_t00z] ∅
     = (Ok (),
        {[ "/tmp/jsons/20240101_t00z_wrfsfcf01_message0.json" := "{2m}";
           "/tmp/jsons/20240101_t00z_wrfsfcf01_message1.json" := "{10m}" ]})).
Proof.
  split_and!.
  - vm_compute. reflexivity.
  - vm_compute. reflexivity.
  - intros Heq.
    assert (Hin : "/tmp/jsons/20240101_t00z_wrfsfcf01_message0.json"
                  ∈ dom (process_files (ext := mock) [url_unreadable; url_t00z] ∅).2).
    { rewrite Heq. apply elem_of_dom. vm_compute. eauto. }
    apply elem_of_dom in Hin as [content Hin]. vm_compute in Hin. discriminate.
  - intros sched. rewrite process_files_parallel_writes.
    + vm_compute. reflexivity.
    + vm_compute.
      repeat constructor; rewrite ?elem_of_cons, elem_of_nil; intuition discriminate.
Qed.

(** The listing returns the days oldest first: the cap keeps the two oldest
    days, and the most recent one is dropped. *)
Lemma cap_days_not_most_recent :
  cap_days days_2024
    = ["noaa-hrrr-bdp-pds/hrrr.20240101"; "noaa-hrrr-bdp-pds/hrrr.20240102"] ∧
  most_recent MAX_DAYS days_2024
    = ["noaa-hrrr-bdp-pds/hrrr.20240103"; "noaa-hrrr-bdp-pds/hrrr.20240102"] ∧
  ¬ (cap_days days_2024 ≡ₚ most_recent MAX_DAYS days_2024) ∧
  ¬ (cap_days (reverse days_2024) ≡ₚ cap_days days_2024).
Proof.
  split_and!.
  - reflexivity.
  - vm_compute. reflexivity.
  - intros Hperm.
    assert (Hin : "noaa-hrrr-bdp-pds/hrrr.20240103" ∈ cap_days days_2024).
    { rewrite Hperm. vm_compute. apply elem_of_cons. by left. }
    vm_compute in Hin.
    repeat (apply elem_of_cons in Hin as [Hin|Hin]; [discriminate|]).
    by apply elem_of_nil in Hin.
  - intros Hperm.
    assert (Hin : "noaa-hrrr-bdp-pds/hrrr.20240103" ∈ cap_days days_2024).
    { rewrite <-Hperm. vm_compute. apply elem_of_cons. by left. }
    vm_compute in Hin.
    repeat (apply elem_of_cons in Hin as [Hin|Hin]; [discriminate|]).
    by apply elem_of_nil in Hin.
Qed.

(** * Further properties of the naming *)

Lemma index_Raise {A} (l : list A) i e : index l i = Raise e → e = IndexError.
Proof. unfold index. destruct (l !! i); congruence. Qed.

Lemma make_json_name_cases file_url n :
  (∃ date segA segB,
     path_segments file_url date segA segB ∧
     make_json_name file_url n = Ok (sidecar_path date segA segB n)) ∨
  (¬ well_formed file_url ∧ make_json_name file_url n = Raise IndexError).
Proof.
  destruct (make_json_name file_url n) as [name|e] eqn:Hname.
  - left. apply make_json_name_Ok_inv in Hname as (date & segA & segB & Hseg & ->).
    by exists date, segA, segB.
  - right. split.
    + intros Hwf. apply (well_formed_iff _ n) in Hwf as [name Hok]. congruence.
    + f_equal. unfold make_json_name in Hname.
      destruct (index (str_split "/"%char file_url) 3) as [day_dir|e3] eqn:H3;
        simpl in Hname; [|apply index_Raise in H3; congruence].
      destruct (index (str_split "."%char day_dir) 1) as [date|e1] eqn:Hdate;
        simpl in Hname; [|apply index_Raise in Hdate; congruence].
      destruct (index (str_split "/"%char file_url) 5) as [base|e5] eqn:H5;
        simpl in Hname; [|apply index_Raise in H5; congruence].
      destruct (index (slice 1 3 (str_split "."%char base)) 0) as [segA|eA] eqn:HA;
        simpl in Hname; [|apply index_Raise in HA; congruence].
      destruct (index (slice 1 3 (str_split "."%char base)) 1) as [segB|eB] eqn:HB;
        simpl in Hname; [done|apply index_Raise in HB; congruence].
Qed.

(** X1. make_json_name either finds the positional segments and returns the
    name built from them, or the path lacks them and it raises IndexError;
    it raises nothing else. *)
Theorem make_json_name_name_or_IndexError file_url message_number :
  (∃ date segA segB,
     path_segments file_url date segA segB ∧
     make_json_name file_url message_number
     = Ok (sidecar_path date segA segB message_number)) ∨
  (¬ well_formed file_url ∧
   make_json_name file_url message_number = Raise IndexError).
Proof. apply make_json_name_cases. Qed.

(** X2. A path with six segments whose file name has fewer than two dots
    still makes make_json_name raise IndexError: the slice [1:3] is too
    short for name_segments[1]. *)
Theorem make_json_name_too_few_dots file_url base message_number :
  str_split "/"%char file_url !! 5 = Some base →
  length (str_split "."%char base) < 3 →
  make_json_name file_url message_number = Raise IndexError.
Proof.
  intros H5 Hdots.
  destruct (make_json_name_cases file_url message_number)
    as [(date & segA & segB & Hseg & _)|[_ Hraise]]; [|done].
  destruct Hseg as (day_dir & base' & _ & _ & H5' & _ & HB).
  rewrite H5 in H5'. injection H5' as <-.
  apply lookup_lt_Some in HB. lia.
Qed.

Lemma make_json_name_too_few_dots_witness :
  make_json_name "s3://bucket/hrrr.20240101/conus/hrrr.grib2" 0 = Raise IndexError.
Proof.
  apply (make_json_name_too_few_dots _ "hrrr.grib2").
  - reflexivity.
  - vm_compute. lia.
Defined.

Lemma has_char_app c s1 s2 :
  has_char c (s1 +:+ s2) = has_char c s1 || has_char c s2.
Proof.
  induction s1 as [|a s1 IH]; [done|].
  change (String a s1 +:+ s2) with (String a (s1 +:+ s2)). simpl.
  by case_decide.
Qed.

Lemma has_char_cons_false c a s :
  has_char c (String a s) = false ↔ a ≠ c ∧ has_char c s = false.
Proof. simpl. case_decide; intuition congruence. Qed.

(** No segment of a split contains the separator. *)
Lemma str_split_no_sep sep s :
  Forall (λ w, has_char sep w = false) (str_split sep s).
Proof.
  induction s as [|a s IH]; simpl.
  - by repeat constructor.
  - case_decide as Ha; [by constructor|].
    destruct (str_split sep s) as [|w ws].
    + repeat constructor. by apply has_char_cons_false.
    + apply Forall_cons in IH as [Hw Hws].
      constructor; [|done]. by apply has_char_cons_false.
Qed.

(** Splitting does not bring in a character that was not there. *)
Lemma str_split_keeps_absent c sep s :
  has_char c s = false →
  Forall (λ w, has_char c w = false) (str_split sep s).
Proof.
  induction s as [|a s IH]; intros Hc; simpl.
  - by repeat constructor.
  - apply has_char_cons_false in Hc as [Hac Hc]. specialize (IH Hc).
    case_decide as Ha; [by constructor|].
    destruct (str_split sep s) as [|w ws].
    + repeat constructor. by apply has_char_cons_false.
    + apply Forall_cons in IH as [Hw Hws].
      constructor; [|done]. by apply has_char_cons_false.
Qed.

Lemma pretty_N_go_keeps_absent c x s :
  (∀ d, pretty_N_char d ≠ c) →
  has_char c s = false → has_char c (pretty_N_go x s) = false.
Proof.
  intros Hdigit. revert s.
  induction (N.lt_wf_0 x) as [x _ IH]; intros s Hs.
  destruct (decide (x = 0)%N) as [->|Hx]; [by rewrite pretty_N_go_0|].
  rewrite pretty_N_go_step by lia. apply IH.
  - apply N.div_lt; lia.
  - by apply has_char_cons_false.
Qed.

Lemma pretty_Z_keeps_absent c (n : Z) :
  (∀ d, pretty_N_char d ≠ c) → c ≠ "-"%char →
  has_char c (pretty n) = false.
Proof.
  intros Hdigit Hdash.
  assert (Hzero : has_char c "0" = false).
  { apply has_char_cons_false. split; [apply (Hdigit 0%N)|done]. }
  assert (Hpos : ∀ p : positive, has_char c (pretty p) = false).
  { intros p. unfold pretty, pretty_positive, pretty, pretty_N.
    case_decide; [done|]. by apply pretty_N_go_keeps_absent. }
  destruct n as [|p|p]; [done|apply Hpos|].
  change (pretty (Z.neg p)) with ("-" +:+ pretty p).
  rewrite has_char_app, Hpos. simpl. by case_decide.
Qed.

Lemma digit_not_slash d : pretty_N_char d ≠ "/"%char.
Proof. unfold pretty_N_char. by repeat case_match. Qed.

Lemma lookup_absent (P : string → Prop) (l : list string) i w :
  Forall P l → l !! i = Some w → P w.
Proof. intros Hall Hi. by eapply Forall_lookup_1. Qed.

(** X3. A name returned by make_json_name is JSON_DIR followed by a text
    without '/': the sidecar lands directly in the JSON directory, whatever
    the source path contains. *)
Theorem make_json_name_stays_in_JSON_DIR file_url message_number name :
  make_json_name file_url message_number = Ok name →
  ∃ base, name = JSON_DIR +:+ base ∧ has_char "/" base = false.
Proof.
  intros Hname.
  apply make_json_name_Ok_inv in Hname as (date & segA & segB & Hseg & ->).
  destruct Hseg as (day_dir & file & H3 & Hdate & H5 & HA & HB).
  pose proof (lookup_absent _ _ _ _ (str_split_no_sep "/" file_url) H3) as Hday.
  pose proof (lookup_absent _ _ _ _ (str_split_no_sep "/" file_url) H5) as Hfile.
  pose proof (lookup_absent _ _ _ _
                (str_split_keeps_absent "/" "." day_dir Hday) Hdate) as Hd.
  pose proof (lookup_absent _ _ _ _
                (str_split_keeps_absent "/" "." file Hfile) HA) as Ha.
  pose proof (lookup_absent _ _ _ _
                (str_split_keeps_absent "/" "." file Hfile) HB) as Hb.
  eexists. split; [reflexivity|].
  rewrite !has_char_app, Hd, Ha, Hb.
  rewrite (pretty_Z_keeps_absent "/" message_number digit_not_slash) by done.
  reflexivity.
Qed.

Lemma make_json_name_stays_in_JSON_DIR_witness :
  ∃ base,
    "/tmp/jsons/20240101_t00z_wrfsfcf01_message0.json" = JSON_DIR +:+ base ∧
    has_char "/" base = false.
Proof.
  apply (make_json_name_stays_in_JSON_DIR url_t00z 0).
  vm_compute. reflexivity.
Defined.

Lemma app_sep_inj c s1 s2 t1 t2 :
  has_char c s1 = false → has_char c s2 = false →
  s1 +:+ String c t1 = s2 +:+ String c t2 → s1 = s2 ∧ t1 = t2.
Proof.
  revert s2. induction s1 as [|a s1 IH]; intros [|b s2] H1 H2 Heq.
  - by injection Heq as ->.
  - change (String b s2 +:+ String c t2) with (String b (s2 +:+ String c t2)) in Heq.
    apply has_char_cons_false in H2 as [Hb _]. injection Heq as -> _. done.
  - change (String a s1 +:+ String c t1) with (String a (s1 +:+ String c t1)) in Heq.
    apply has_char_cons_false in H1 as [Ha _]. injection Heq as -> _. done.
  - change (String a s1 +:+ String c t1) with (String a (s1 +:+ String c t1)) in Heq.
    change (String b s2 +:+ String c t2) with (String b (s2 +:+ String c t2)) in Heq.
    apply has_char_cons_false in H1 as [_ H1].
    apply has_char_cons_false in H2 as [_ H2].
    injection Heq as -> Heq. destruct (IH s2 H1 H2 Heq) as [-> ->]. done.
Qed.

Lemma sidecar_path_inj_all d1 a1 b1 n1 d2 a2 b2 n2 :
  has_char "_" d1 = false → has_char "_" a1 = false → has_char "_" b1 = false →
  has_char "_" d2 = false → has_char "_" a2 = false → has_char "_" b2 = false →
  sidecar_path d1 a1 b1 n1 = sidecar_path d2 a2 b2 n2 →
  d1 = d2 ∧ a1 = a2 ∧ b1 = b2 ∧ n1 = n2.
Proof.
  intros Hd1 Ha1 Hb1 Hd2 Ha2 Hb2 Heq. unfold sidecar_path in Heq.
  apply String.app_inj in Heq.
  apply (app_sep_inj "_" d1 d2) in Heq as [-> Heq]; [|done..].
  apply (app_sep_inj "_" a1 a2) in Heq as [-> Heq]; [|done..].
  apply (app_sep_inj "_" b1 b2 ("message" +:+ pretty n1 +:+ ".json")
           ("message" +:+ pretty n2 +:+ ".json")) in Heq as [-> Heq]; [|done..].
  apply String.app_inj, string_app_inv_tail in Heq.
  by apply (inj pretty) in Heq as ->.
Qed.

(** X4. When the date and the two naming segments of two source paths
    contain no underscore, the names derived for them coincide only if the
    segments and the message indices coincide: such files never overwrite
    each other's sidecars. *)
Theorem make_json_name_distinct_sources url1 url2 d1 a1 b1 d2 a2 b2 n1 n2 :
  path_segments url1 d1 a1 b1 →
  path_segments url2 d2 a2 b2 →
  has_char "_" d1 = false → has_char "_" a1 = false → has_char "_" b1 = false →
  has_char "_" d2 = false → has_char "_" a2 = false → has_char "_" b2 = false →
  (d1, a1, b1, n1) ≠ (d2, a2, b2, n2) →
  make_json_name url1 n1 ≠ make_json_name url2 n2.
Proof.
  intros Hseg1 Hseg2 Hd1 Ha1 Hb1 Hd2 Ha2 Hb2 Hne Heq.
  rewrite (make_json_name_segments _ _ _ _ _ Hseg1) in Heq.
  rewrite (make_json_name_segments _ _ _ _ _ Hseg2) in Heq.
  assert (Hpath : sidecar_path d1 a1 b1 n1 = sidecar_path d2 a2 b2 n2) by congruence.
  apply sidecar_path_inj_all in Hpath as (-> & -> & -> & ->); done.
Qed.

Lemma url_t01z_segments : path_segments url_t01z "20240101" "t01z" "wrfsfcf01".
Proof.
  exists "hrrr.20240101", "hrrr.t01z.wrfsfcf01.grib2".
  repeat split; reflexivity.
Defined.

Lemma make_json_name_distinct_sources_witness :
  make_json_name url_t00z 0 ≠ make_json_name url_t01z 0.
Proof.
  apply (make_json_name_distinct_sources url_t00z url_t01z
           "20240101" "t00z" "wrfsfcf01" "20240101" "t01z" "wrfsfcf01").
  - exact url_t00z_segments.
  - exact url_t01z_segments.
  - reflexivity.
  - reflexivity.
  - reflexivity.
  - reflexivity.
  - reflexivity.
  - reflexivity.
  - intros Heq. discriminate Heq.
Defined.

(** * Further properties of the extraction *)

Section extraction_more.
Context `{ext : External}.





(** X6. On a path without the positional segments generate_json_files
    raises IndexError as soon as the scanner returns a message, and returns
    normally when the scanner returns none; the filesystem is unchanged in
    both cases. *)
Theorem generate_json_files_malformed file_url references fs :
  ¬ well_formed file_url →
  scan_grib file_url STORAGE_OPTIONS FILTER_CONDITIONS = Ok references →
  generate_json_files file_url fs
  = (match references with [] => Ok () | _ :: _ => Raise IndexError end, fs).
Proof.
  intros Hmalformed Hscan. unfold generate_json_files. rewrite Hscan.
  destruct references as [|message rest]; [done|]. simpl.
  destruct (make_json_name_cases file_url (Z.of_nat 0))
    as [(date & segA & segB & Hseg & _)|[_ ->]]; [|done].
  destruct Hmalformed. by exists date, segA, segB.
Qed.

(** X7. process_files on a concatenation runs the first list and, when that
    returned normally, the second on the filesystem it left; an exception of
    the first list ends the run. *)
Theorem process_files_app file_list1 file_list2 fs :
  process_files (file_list1 ++ file_list2) fs
  = match process_files file_list1 fs with
    | (Ok _, fs') => process_files file_list2 fs'
    | (Raise e, fs') => (Raise e, fs')
    end.
Proof.
  revert fs. induction file_list1 as [|file_url rest IH]; intros fs; [done|].
  simpl. destruct (generate_json_files file_url fs) as [[[]|e] fs']; [|done].
  apply IH.
Qed.

(** X8. When process_files raises, the file list splits into the files
    done, the failing file and the skipped files: the run over the files done
    returned normally, the failing call started from the filesystem that run
    left, and the filesystem at the end is the one the failing call left;
    the skipped files are never processed. *)
Theorem process_files_stops_at_first_failure file_list fs e fs' :
  process_files file_list fs = (Raise e, fs') →
  ∃ done_files file_url skipped fs_done,
    file_list = done_files ++ file_url :: skipped ∧
    process_files done_files fs = (Ok (), fs_done) ∧
    generate_json_files file_url fs_done = (Raise e, fs').
Proof.
  revert fs. induction file_list as [|file_url rest IH]; intros fs Hrun; [done|].
  simpl in Hrun.
  destruct (generate_json_files file_url fs) as [[[]|e0] fs1] eqn:Hone.
  - apply IH in Hrun as (done_files & failing & skipped & fs_done & -> & Hdone & Hfail).
    exists (file_url :: done_files), failing, skipped, fs_done.
    split_and!; [done| |done]. simpl. by rewrite Hone.
  - injection Hrun as <- <-.
    by exists [], file_url, rest, fs.
Qed.

Lemma apply_writes_union log fs :
  apply_writes log fs = list_to_map (reverse log) ∪ fs.
Proof.
  revert fs. induction log as [|w log IH]; intros fs.
  - simpl. by rewrite (left_id ∅ (∪)).
  - change (apply_writes (w :: log) fs) with (apply_writes log (<[w.1 := w.2]> fs)).
    rewrite IH, reverse_cons, list_to_map_app. simpl.
    by rewrite insert_empty, <-(assoc (∪)), <-insert_union_singleton_l.
Qed.

Lemma apply_writes_idemp log fs :
  apply_writes log (apply_writes log fs) = apply_writes log fs.
Proof. by rewrite !apply_writes_union, (assoc (∪)), (idemp (∪)). Qed.

Lemma write_messages_status file_url i references fs1 fs2 :
  (write_messages file_url i references fs1).1
  = (write_messages file_url i references fs2).1.
Proof.
  revert i fs1 fs2.
  induction references as [|message rest IH]; intros i fs1 fs2; [done|].
  simpl. destruct (make_json_name file_url (Z.of_nat i)) as [name|e]; [|done].
  rewrite !write_sidecar_effect.
  destruct (sidecar_effect name message) as [[[]|e] kept]; simpl; [apply IH|done].
Qed.

Lemma generate_json_files_status file_url fs1 fs2 :
  (generate_json_files file_url fs1).1 = (generate_json_files file_url fs2).1.
Proof.
  unfold generate_json_files.
  destruct (scan_grib file_url STORAGE_OPTIONS FILTER_CONDITIONS); [|done].
  apply write_messages_status.
Qed.

Lemma process_files_status file_list fs1 fs2 :
  (process_files file_list fs1).1 = (process_files file_list fs2).1.
Proof.
  revert fs1 fs2. induction file_list as [|file_url rest IH]; intros fs1 fs2; [done|].
  simpl. pose proof (generate_json_files_status file_url fs1 fs2) as Hstatus.
  destruct (generate_json_files file_url fs1) as [[[]|e1] fs1'],
           (generate_json_files file_url fs2) as [[[]|e2] fs2'];
    simpl in Hstatus; try discriminate.
  - apply IH.
  - simpl. congruence.
Qed.

(** X9. Running process_files again on the filesystem left by a normal run
    returns normally and changes nothing: the sidecars are overwritten with
    the same content. *)
Theorem process_files_rerun file_list fs fs' :
  process_files file_list fs = (Ok (), fs') →
  process_files file_list fs' = (Ok (), fs').
Proof.
  intros Hrun.
  pose proof (process_files_status file_list fs fs') as Hstatus.
  rewrite Hrun in Hstatus. simpl in Hstatus.
  destruct (process_files file_list fs') as [r fs''] eqn:Hagain.
  simpl in Hstatus. subst r.
  apply process_files_writes in Hrun, Hagain. subst fs' fs''.
  by rewrite apply_writes_idemp.
Qed.

Lemma process_files_parallel_dom sched file_list fs :
  (process_files_parallel sched file_list fs).1 = Ok () ∧
  dom (process_files_parallel sched file_list fs).2
  = dom fs ∪ list_to_set (written_names file_list).
Proof.
  unfold process_files_parallel, written_names.
  pose proof (run_schedule_dom sched (Submitted <$> file_list) fs) as Hdom.
  destruct (run_schedule sched (Submitted <$> file_list) fs) as [pool fs'].
  simpl in *. split; [done|].
  by rewrite shutdown_wait_writes, dom_apply_writes.
Qed.

(** X10. process_files_parallel returns normally whatever the tasks do, and
    the set of file names it leaves is the same for every schedule: the
    names present before together with the names of the files the tasks
    manage to open. *)
Theorem process_files_parallel_names sched file_list fs :
  (process_files_parallel sched file_list fs).1 = Ok () ∧
  dom (process_files_parallel sched file_list fs).2
  = dom fs ∪ list_to_set (written_names file_list).
Proof. apply process_files_parallel_dom. Qed.

Lemma loop_writes_NoDup file_url i references :
  NoDup (loop_writes file_url i references).*1.
Proof.
  destruct (make_json_name_cases file_url (Z.of_nat i))
    as [(date & segA & segB & Hseg & _)|[_ Hraise]].
  - by apply (loop_writes_names _ _ _ _ i references Hseg).
  - destruct references as [|message rest]; simpl; [constructor|].
    rewrite Hraise. constructor.
Qed.

(** X11. With a single file every schedule of the pool leaves the
    filesystem that the plain call of generate_json_files leaves; only an
    exception of the call is not passed on. *)
Theorem process_files_parallel_single sched file_url fs :
  process_files_parallel sched [file_url] fs
  = (Ok (), (generate_json_files file_url fs).2).
Proof.
  rewrite process_files_parallel_writes.
  - f_equal.
    change (pool_writes (Submitted <$> [file_url]))
      with (task_writes (Submitted file_url) ++ []).
    rewrite app_nil_r. symmetry. apply (task_finish_writes (Submitted file_url)).
  - change (written_names [file_url])
      with ((task_writes (Submitted file_url) ++ []).*1).
    rewrite app_nil_r. simpl.
    destruct (scan_grib file_url STORAGE_OPTIONS FILTER_CONDITIONS);
      [apply loop_writes_NoDup|constructor].
Qed.

End extraction_more.

(** * Further properties of discovery, combination and the entry point *)

Lemma sorted_perm l1 l2 : l1 ≡ₚ l2 → sorted l1 = sorted l2.
Proof.
  intros Hperm. apply (Sorted_unique String.le).
  - apply sorted_Sorted.
  - apply sorted_Sorted.
  - by rewrite !sorted_Permutation.
Qed.

Lemma str_split_s3 file :
  str_split "/" ("s3://" +:+ file) = "s3:" :: "" :: str_split "/" file.
Proof.
  change ("s3://" +:+ file)
    with (String "s" (String "3" (String ":" (String "/" (String "/" file))))).
  reflexivity.
Qed.

Lemma listed_entry_well_formed file date segA segB :
  listed_entry file date segA segB →
  path_segments ("s3://" +:+ file) date segA segB.
Proof.
  intros (day_dir & base & H1 & Hdate & H3 & HA & HB).
  exists day_dir, base. rewrite str_split_s3. by split_and!.
Qed.

Section discovery_more.
Context `{ext : External}.

(** X12. Whenever two directory listings hold the same paths, in whatever
    order fs_write.ls returns them, the consolidator gets the same
    arguments; on one and the same filesystem combine_references then has
    the same outcome. *)
Theorem combine_references_listing_order dir1 dir2 fs1 fs2 listing1 listing2 :
  fs_write_ls fs1 dir1 = Ok listing1 →
  fs_write_ls fs2 dir2 = Ok listing2 →
  listing1 ≡ₚ listing2 →
  consolidator_call dir1 fs1 = consolidator_call dir2 fs2 ∧
  (fs1 = fs2 → combine_references dir1 fs1 = combine_references dir2 fs2).
Proof.
  intros Hls1 Hls2 Hperm.
  assert (Hcall : consolidator_call dir1 fs1 = consolidator_call dir2 fs2).
  { unfold consolidator_call. rewrite Hls1, Hls2. simpl.
    by rewrite (sorted_perm _ _ Hperm). }
  split; [done|]. intros <-. unfold combine_references. by rewrite Hcall.
Qed.

Lemma day_files_Raise before day after e :
  (∀ d, d ∈ before →
     ∃ files, fs_read_glob ("s3://" +:+ d +:+ "/conus/*wrfsfcf01.grib2") = Ok files) →
  fs_read_glob ("s3://" +:+ day +:+ "/conus/*wrfsfcf01.grib2") = Raise e →
  day_files (before ++ day :: after) = Raise e.
Proof.
  intros Hbefore Hday. induction before as [|d before IH]; simpl.
  - by rewrite Hday.
  - destruct (Hbefore d) as [files ->]; [apply elem_of_cons; by left|]. simpl.
    rewrite IH; [done|].
    intros d' Hd'. apply Hbefore. apply elem_of_cons. by right.
Qed.

(** X13. An exception of the listing of one of the kept days leaves
    find_grib_files through that exception: no partial file list is
    returned, and the days after it are not listed. *)
Theorem find_grib_files_day_listing_error listing before day after e :
  fs_read_glob "s3://noaa-hrrr-bdp-pds/hrrr.*" = Ok listing →
  take MAX_DAYS listing = before ++ day :: after →
  (∀ d, d ∈ before →
     ∃ files, fs_read_glob ("s3://" +:+ d +:+ "/conus/*wrfsfcf01.grib2") = Ok files) →
  fs_read_glob ("s3://" +:+ day +:+ "/conus/*wrfsfcf01.grib2") = Raise e →
  find_grib_files = Raise e.
Proof.
  intros Hdays Hkept Hbefore Hday. unfold find_grib_files.
  rewrite Hdays. simpl. rewrite cap_days_take, Hkept.
  by rewrite (day_files_Raise _ _ _ _ Hbefore Hday).
Qed.

Lemma day_files_inv days paths :
  day_files days = Ok paths →
  ∀ path, path ∈ paths →
    ∃ day files file,
      day ∈ days ∧
      fs_read_glob ("s3://" +:+ day +:+ "/conus/*wrfsfcf01.grib2") = Ok files ∧
      file ∈ files ∧ path = "s3://" +:+ file.
Proof.
  revert paths. induction days as [|day rest IH]; intros paths Hrun path Hin.
  { injection Hrun as <-. by apply elem_of_nil in Hin. }
  simpl in Hrun.
  destruct (fs_read_glob ("s3://" +:+ day +:+ "/conus/*wrfsfcf01.grib2"))
    as [files|] eqn:Hglob; [|done].
  simpl in Hrun. destruct (day_files rest) as [more|] eqn:Hrest; [|done].
  simpl in Hrun. injection Hrun as <-.
  apply elem_of_app in Hin as [Hin|Hin].
  - apply list_elem_of_fmap in Hin as (file & -> & Hfile).
    exists day, files, file. split_and!; [apply elem_of_cons; by left|done..].
  - destruct (IH more eq_refl path Hin) as (day' & files' & file & Hday & ? & ? & ?).
    exists day', files', file. split_and!; [apply elem_of_cons; by right|done..].
Qed.

(** X14. When the entries listed under the kept days have the shape
    bucket/hrrr.DATE/conus/hrrr.A.B..., every path find_grib_files returns
    is one make_json_name accepts: it returns a name for every message
    index. *)
Theorem find_grib_files_paths_named listing paths file_url message_number :
  fs_read_glob "s3://noaa-hrrr-bdp-pds/hrrr.*" = Ok listing →
  (∀ day files file,
     day ∈ take MAX_DAYS listing →
     fs_read_glob ("s3://" +:+ day +:+ "/conus/*wrfsfcf01.grib2") = Ok files →
     file ∈ files →
     ∃ date segA segB, listed_entry file date segA segB) →
  find_grib_files = Ok paths →
  file_url ∈ paths →
  ∃ name, make_json_name file_url message_number = Ok name.
Proof.
  intros Hdays Hshape Hfind Hin. unfold find_grib_files in Hfind.
  rewrite Hdays in Hfind. simpl in Hfind. rewrite cap_days_take in Hfind.
  destruct (day_files (take MAX_DAYS listing)) as [file_paths|] eqn:Hfiles; [|done].
  simpl in Hfind. injection Hfind as <-.
  rewrite sorted_Permutation in Hin.
  destruct (day_files_inv _ _ Hfiles _ Hin)
    as (day & files & file & Hday & Hglob & Hfile & ->).
  destruct (Hshape day files file Hday Hglob Hfile) as (date & segA & segB & Hentry).
  apply listed_entry_well_formed in Hentry.
  eauto using make_json_name_segments.
Qed.

End discovery_more.

Section entry_point_more.
Context `{plt : Plotting}.

(** X15. When main returns normally, discovery succeeded, the figure is on
    disk, and the file names on disk are those present before, the figure
    and the names of the files the extraction tasks manage to open for the
    discovered files, whatever the schedule of the pool. *)
Theorem main_success sched fs fs_end :
  main sched fs = (Ok (), fs_end) →
  ∃ grib_files image,
    find_grib_files = Ok grib_files ∧
    fs_end !! "d2m_plot.png" = Some image ∧
    dom fs_end
    = {["d2m_plot.png"]} ∪ (dom fs ∪ list_to_set (written_names grib_files)).
Proof.
  unfold main. intros Hmain.
  destruct find_grib_files as [grib_files|] eqn:Hfind; [|done].
  pose proof (process_files_parallel_dom sched grib_files fs) as [Hok Hdom].
  destruct (process_files_parallel sched grib_files fs) as [[[]|e] fs']; [|done].
  simpl in Hdom.
  destruct (combine_references JSON_DIR fs') as [dataset|]; [|done].
  destruct (render_last_d2m dataset) as [image|]; [|done].
  injection Hmain as <-. exists grib_files, image.
  split_and!; [done|apply lookup_insert_eq|].
  by rewrite dom_insert_L, Hdom.
Qed.

(** X16. An exception of main comes from discovery, from the combination or
    from the plot, never from an extraction task: a failed discovery leaves
    the filesystem untouched, and otherwise the filesystem is the one the
    pool left. *)
Theorem main_failure sched fs e fs_end :
  main sched fs = (Raise e, fs_end) →
  (find_grib_files = Raise e ∧ fs_end = fs) ∨
  (∃ grib_files,
     find_grib_files = Ok grib_files ∧
     fs_end = (process_files_parallel sched grib_files fs).2 ∧
     (combine_references JSON_DIR fs_end = Raise e ∨
      ∃ dataset,
        combine_references JSON_DIR fs_end = Ok dataset ∧
        render_last_d2m dataset = Raise e)).
Proof.
  unfold main. intros Hmain.
  destruct find_grib_files as [grib_files|e0] eqn:Hfind.
  - right. exists grib_files. split; [done|].
    pose proof (process_files_parallel_dom sched grib_files fs) as [Hok _].
    destruct (process_files_parallel sched grib_files fs) as [[[]|e1] fs']; [|done].
    simpl.
    destruct (combine_references JSON_DIR fs') as [dataset|e2] eqn:Hcombine.
    + destruct (render_last_d2m dataset) as [image|e3] eqn:Hplot; [done|].
      injection Hmain as <- <-. rewrite Hcombine. eauto.
    + injection Hmain as <- <-. rewrite Hcombine. auto.
  - left. by injection Hmain as <- <-.
Qed.

End entry_point_more.

(** * The further properties on the mock environments *)

Example mock_no_directory_writes_nothing :
  generate_json_files (ext := mock_no_directory) url_t00z ∅
  = (Raise ExternalError, ∅).
Proof. vm_compute. reflexivity. Qed.

Example mock_bad_encoder_leaves_empty_file :
  generate_json_files (ext := mock_bad_encoder) url_t00z ∅
  = (Raise ExternalError,
     {[ "/tmp/jsons/20240101_t00z_wrfsfcf01_message0.json" := "{2m}";
        "/tmp/jsons/20240101_t00z_wrfsfcf01_message1.json" := "" ]}).
Proof. vm_compute. reflexivity. Qed.

Example mock_no_directory_pool_leaves_nothing :
  process_files_parallel (ext := mock_no_directory) [1; 0; 1] [url_t00z; url_t01z] ∅
  = (Ok (), ∅) ∧
  written_names (ext := mock_no_directory) [url_t00z; url_t01z] = [].
Proof. split; vm_compute; reflexivity. Qed.


Lemma four_segments_malformed : ¬ well_formed "s3://bucket/hrrr.t00z.wrfsfcf01.grib2".
Proof.
  intros (date & segA & segB & day_dir & base & _ & _ & H5 & _).
  vm_compute in H5. discriminate H5.
Defined.

Lemma generate_json_files_malformed_witness :
  generate_json_files (ext := mock) "s3://bucket/hrrr.t00z.wrfsfcf01.grib2" ∅
  = (Raise IndexError, ∅).
Proof.
  apply (generate_json_files_malformed (ext := mock)
           "s3://bucket/hrrr.t00z.wrfsfcf01.grib2" ["{2m}"; "{10m}"] ∅).
  - exact four_segments_malformed.
  - reflexivity.
Defined.

Lemma process_files_stops_at_first_failure_witness :
  ∃ done_files file_url skipped fs_done,
    [url_t00z; url_unreadable; url_t01z] = done_files ++ file_url :: skipped ∧
    process_files (ext := mock) done_files ∅ = (Ok (), fs_done) ∧
    generate_json_files (ext := mock) file_url fs_done
    = (Raise ExternalError, (process_files (ext := mock) [url_t00z] ∅).2).
Proof.
  apply (process_files_stops_at_first_failure (ext := mock)
           [url_t00z; url_unreadable; url_t01z] ∅).
  vm_compute. reflexivity.
Defined.

Lemma process_files_rerun_witness :
  process_files (ext := mock) [url_t00z; url_t01z]
    (process_files (ext := mock) [url_t00z; url_t01z] ∅).2
  = (Ok (), (process_files (ext := mock) [url_t00z; url_t01z] ∅).2).
Proof.
  apply (process_files_rerun (ext := mock) [url_t00z; url_t01z] ∅).
  vm_compute. reflexivity.
Defined.

Example mock_unordered_listings :
  fs_write_ls (External := mock_unordered) sidecars_on_disk "/tmp/jsons"
  = Ok ["/tmp/jsons/20240101_t00z_wrfsfcf01_message0.json";
        "/tmp/jsons/20240101_t00z_wrfsfcf01_message1.json";
        "/tmp/jsons/20240101_t01z_wrfsfcf01_message0.json"] ∧
  fs_write_ls (External := mock_unordered) sidecars_on_disk "/tmp/jsons/"
  = Ok ["/tmp/jsons/20240101_t01z_wrfsfcf01_message0.json";
        "/tmp/jsons/20240101_t00z_wrfsfcf01_message1.json";
        "/tmp/jsons/20240101_t00z_wrfsfcf01_message0.json"].
Proof. split; vm_compute; reflexivity. Qed.

Lemma combine_references_listing_order_witness :
  consolidator_call (ext := mock_unordered) "/tmp/jsons" sidecars_on_disk
  = consolidator_call (ext := mock_unordered) "/tmp/jsons/" sidecars_on_disk ∧
  (sidecars_on_disk = sidecars_on_disk →
   combine_references (ext := mock_unordered) "/tmp/jsons" sidecars_on_disk
   = combine_references (ext := mock_unordered) "/tmp/jsons/" sidecars_on_disk).
Proof.
  apply (combine_references_listing_order (ext := mock_unordered)
           "/tmp/jsons" "/tmp/jsons/" sidecars_on_disk sidecars_on_disk
           (reverse (elements (dom sidecars_on_disk)))
           (elements (dom sidecars_on_disk))).
  - vm_compute. reflexivity.
  - vm_compute. reflexivity.
  - apply reverse_Permutation.
Defined.

Lemma find_grib_files_day_listing_error_witness :
  find_grib_files (ext := mock_store ["noaa-hrrr-bdp-pds/hrrr.20240101"])
  = Raise ExternalError.
Proof.
  apply (find_grib_files_day_listing_error
           (ext := mock_store ["noaa-hrrr-bdp-pds/hrrr.20240101"])
           days_2024 ["noaa-hrrr-bdp-pds/hrrr.20240101"]
           "noaa-hrrr-bdp-pds/hrrr.20240102" []).
  - reflexivity.
  - reflexivity.
  - intros d Hd. apply list_elem_of_singleton in Hd as ->.
    eexists. vm_compute. reflexivity.
  - vm_compute. reflexivity.
Defined.

Lemma find_grib_files_paths_named_witness :
  ∃ name,
    make_json_name
      "s3://noaa-hrrr-bdp-pds/hrrr.20240102/conus/hrrr.t01z.wrfsfcf01.grib2" 1
    = Ok name.
Proof.
  eapply (find_grib_files_paths_named
            (ext := mock_store ["noaa-hrrr-bdp-pds/hrrr.20240101";
                                "noaa-hrrr-bdp-pds/hrrr.20240102"])
            days_2024).
  - reflexivity.
  - intros day files file Hday Hglob Hfile.
    change (take MAX_DAYS days_2024)
      with ["noaa-hrrr-bdp-pds/hrrr.20240101"; "noaa-hrrr-bdp-pds/hrrr.20240102"]
      in Hday.
    apply elem_of_cons in Hday as [->|Hday];
      [|apply list_elem_of_singleton in Hday as ->];
      vm_compute in Hglob; injection Hglob as <-;
      (apply elem_of_cons in Hfile as [->|Hfile];
        [|apply list_elem_of_singleton in Hfile as ->]);
      eexists _, _, _, _, _; repeat split; reflexivity.
  - vm_compute. reflexivity.
  - apply elem_of_cons. right. apply elem_of_cons. right.
    apply elem_of_cons. right. apply elem_of_cons. by left.
Defined.

Lemma main_success_witness :
  ∃ (grib_files : list string) (image : string),
    find_grib_files (ext := mock_two_days) = Ok grib_files ∧
    (main (plt := mock_plotting mock_two_days) [2; 0; 3; 1; 2] ∅).2 !! "d2m_plot.png"
    = Some image ∧
    dom (main (plt := mock_plotting mock_two_days) [2; 0; 3; 1; 2] ∅).2
    = ({["d2m_plot.png"]} : gset string)
        ∪ (dom (∅ : filesystem)
             ∪ list_to_set (written_names (ext := mock_two_days) grib_files)).
Proof.
  apply (main_success (plt := mock_plotting mock_two_days) [2; 0; 3; 1; 2] ∅).
  vm_compute. reflexivity.
Defined.

Lemma main_failure_witness :
  (find_grib_files (ext := mock_unreachable) = Raise ExternalError ∧
   (∅ : filesystem) = ∅) ∨
  (∃ grib_files : list string,
     find_grib_files (ext := mock_unreachable) = Ok grib_files ∧
     (∅ : filesystem)
     = (process_files_parallel (ext := mock_unreachable) [0; 1] grib_files ∅).2 ∧
     (combine_references (ext := mock_unreachable) JSON_DIR ∅ = Raise ExternalError ∨
      ∃ dataset,
        combine_references (ext := mock_unreachable) JSON_DIR ∅ = Ok dataset ∧
        render_last_d2m (Plotting := mock_plotting mock_unreachable) dataset
        = Raise ExternalError)).
Proof.
  apply (main_failure (plt := mock_plotting mock_unreachable) [0; 1] ∅).
  vm_compute. reflexivity.
Defined.
